(** * Configuration resolution and migration (src/Configurations.ts)

    A shallow embedding of the [Configurations] class: the values a settings
    file can hold, the scoped setting store with its asynchronous updates,
    the legacy-key migration, the derived accessors, the expansion of the
    executable settings and the debug template resolution. *)

From Stdlib Require Import ZArith QArith Bool List String Ascii DecimalString Lia.
Import ListNotations.

Set Warnings "-register-all".
Local Open Scope string_scope.

(** ** JavaScript values *)

(** A JavaScript number.  A finite number is represented by the rational it
    denotes: rounding to binary64, underflow, overflow and the sign of zero
    are outside this model.  A comparison or a maximum of given numbers does
    not depend on that; a conversion from a string or a product agrees with
    the code where binary64 holds the value exactly, as it does every
    integer below 2^53 in magnitude. *)
Inductive number : Type :=
| NaN
| Infinity (negative : bool)
| Finite (q : Q).

(** The values a setting can hold: what JSON can express, and [undefined]
    for an absent setting or property.  An object is the list of its own
    properties in insertion order; a string is a sequence of 8-bit
    characters. *)
Inductive JsVal : Type :=
| VUndefined
| VNull
| VBool (b : bool)
| VNumber (n : number)
| VString (s : string)
| VArray (elems : list JsVal)
| VObject (props : list (string * JsVal)).

Definition integer (z : Z) : number := Finite (inject_Z z).

(** [typeof v]. *)
Definition typeof (v : JsVal) : string :=
  match v with
  | VUndefined => "undefined"
  | VNull => "object"
  | VBool _ => "boolean"
  | VNumber _ => "number"
  | VString _ => "string"
  | VArray _ => "object"
  | VObject _ => "object"
  end.

Definition isUndefined (v : JsVal) : bool :=
  match v with VUndefined => true | _ => false end.

Definition isNull (v : JsVal) : bool :=
  match v with VNull => true | _ => false end.

Definition Array_isArray (v : JsVal) : bool :=
  match v with VArray _ => true | _ => false end.

Definition Number_isNaN (n : number) : bool :=
  match n with NaN => true | _ => false end.

(** [a < b] on numbers; false as soon as one side is [NaN]. *)
Definition number_lt (a b : number) : bool :=
  match a, b with
  | NaN, _ | _, NaN => false
  | Infinity true, Infinity true => false
  | Infinity true, _ => true
  | _, Infinity true => false
  | Infinity false, _ => false
  | _, Infinity false => true
  | Finite x, Finite y =>
      match Qcompare x y with Lt => true | _ => false end
  end.

(** [a > b]. *)
Definition number_gt (a b : number) : bool := number_lt b a.

(** [Math.max(a, b)] on numbers: [NaN] if either is, else the larger. *)
Definition Math_max (a b : number) : number :=
  match a, b with
  | NaN, _ | _, NaN => NaN
  | _, _ => if number_lt a b then b else a
  end.

(** Truthiness, as tested by [if], [&&], [||] and [?:]. *)
Definition truthy (v : JsVal) : bool :=
  match v with
  | VUndefined | VNull => false
  | VBool b => b
  | VNumber NaN => false
  | VNumber (Infinity _) => true
  | VNumber (Finite q) => negb (Qeq_bool q 0)
  | VString s => negb (String.eqb s "")
  | VArray _ | VObject _ => true
  end.

(** ** String to number conversion *)

(** The white space of a numeric string, among the ASCII characters: tab,
    line feed, vertical tab, form feed, carriage return and space.  The
    white space outside ASCII (U+00A0, U+FEFF, U+2028, U+2029 and the space
    separators) is not recognised: the conversion below stands for
    [Number()] on strings of ASCII characters. *)
Definition isStrWhiteSpaceChar (c : ascii) : bool :=
  let n := nat_of_ascii c in
  ((9 <=? n) && (n <=? 13) || (n =? 32))%nat.

Fixpoint skipWhiteSpace (l : list ascii) : list ascii :=
  match l with
  | c :: r => if isStrWhiteSpaceChar c then skipWhiteSpace r else l
  | [] => []
  end.

Definition trimWhiteSpace (l : list ascii) : list ascii :=
  rev (skipWhiteSpace (rev (skipWhiteSpace l))).

(** The value of a digit in the given radix, if it is one. *)
Definition digitValue (radix : Z) (c : ascii) : option Z :=
  (let n := Z.of_nat (nat_of_ascii c) in
   let d :=
     if (48 <=? n) && (n <=? 57) then Some (n - 48)
     else if (97 <=? n) && (n <=? 102) then Some (n - 87)
     else if (65 <=? n) && (n <=? 70) then Some (n - 55)
     else None in
   match d with
   | Some k => if k <? radix then Some k else None
   | None => None
   end)%Z.

(** The longest prefix of decimal digits, read as a number with the
    accumulator in front, and what follows it. *)
Fixpoint takeDigits (acc : Z) (count : nat) (l : list ascii)
  : Z * nat * list ascii :=
  match l with
  | c :: r =>
      match digitValue 10 c with
      | Some d => takeDigits (10 * acc + d) (S count) r
      | None => (acc, count, l)
      end
  | [] => (acc, count, [])
  end.

(** A string made of digits of the radix only, and at least one. *)
Fixpoint radixDigits (radix : Z) (acc : Z) (l : list ascii) : option Z :=
  match l with
  | [] => Some acc
  | c :: r =>
      match digitValue radix c with
      | Some d => radixDigits radix (radix * acc + d) r
      | None => None
      end
  end.

Definition nonDecimalIntegerLiteral (l : list ascii) : option (option Z) :=
  match l with
  | "0"%char :: p :: ds =>
      let radix :=
        if Ascii.eqb p "x" || Ascii.eqb p "X" then Some 16%Z
        else if Ascii.eqb p "o" || Ascii.eqb p "O" then Some 8%Z
        else if Ascii.eqb p "b" || Ascii.eqb p "B" then Some 2%Z
        else None in
      match radix with
      | Some r =>
          Some (match ds with [] => None | _ => radixDigits r 0 ds end)
      | None => None
      end
  | _ => None
  end.

(** [m * 10^e] as a rational in lowest terms. *)
Definition scale10 (m e : Z) : Q :=
  if (0 <=? e)%Z then inject_Z (m * 10 ^ e)
  else Qred (Qmake m (Z.to_pos (10 ^ (- e)))).

(** An exponent part: [e] or [E], an optional sign, digits to the end. *)
Definition exponentPart (l : list ascii) : option Z :=
  match l with
  | [] => Some 0%Z
  | c :: r =>
      if Ascii.eqb c "e" || Ascii.eqb c "E" then
        let '(neg, ds) :=
          match r with
          | "+"%char :: r' => (false, r')
          | "-"%char :: r' => (true, r')
          | _ => (false, r)
          end in
        match takeDigits 0 0 ds with
        | (_, O, _) => None
        | (v, _, []) => Some (if neg then (- v)%Z else v)
        | _ => None
        end
      else None
  end.

(** An unsigned decimal literal: [Infinity], or digits with an optional
    fraction and exponent and at least one digit before the exponent. *)
Definition strUnsignedDecimalLiteral (l : list ascii) : number :=
  if String.eqb (string_of_list_ascii l) "Infinity" then Infinity false
  else
    let '(ip, ni, r1) := takeDigits 0 0 l in
    let '(m, nf, r2) :=
      match r1 with
      | "."%char :: r => takeDigits ip 0 r
      | _ => (ip, O, r1)
      end in
    match (ni + nf)%nat with
    | O => NaN
    | _ =>
        match exponentPart r2 with
        | Some e => Finite (scale10 m (e - Z.of_nat nf))
        | None => NaN
        end
    end.

Definition number_neg (n : number) : number :=
  match n with
  | NaN => NaN
  | Infinity s => Infinity (negb s)
  | Finite q => Finite (Qopp q)
  end.

(** [Number(s)] for a string: surrounding white space is ignored, the empty
    string is 0, anything that is not a numeric literal is [NaN]. *)
Definition StringToNumber (s : string) : number :=
  match trimWhiteSpace (list_ascii_of_string s) with
  | [] => integer 0
  | l =>
      match nonDecimalIntegerLiteral l with
      | Some (Some v) => integer v
      | Some None => NaN
      | None =>
          match l with
          | "+"%char :: r => strUnsignedDecimalLiteral r
          | "-"%char :: r => number_neg (strUnsignedDecimalLiteral r)
          | _ => strUnsignedDecimalLiteral l
          end
      end
  end.

(** [Number(v)].  An object converts through its string form: a plain
    object gives ["[object Object]"], an array the comma-joined strings of
    its elements ([null] and [undefined] giving the empty string), so only
    the empty array and some singletons are numeric. *)
Fixpoint ToNumber (v : JsVal) : number :=
  match v with
  | VUndefined => NaN
  | VNull => integer 0
  | VBool b => if b then integer 1 else integer 0
  | VNumber n => n
  | VString s => StringToNumber s
  | VObject _ => NaN
  | VArray l =>
      match l with
      | [] => integer 0
      | [x] =>
          match x with
          | VUndefined | VNull => integer 0
          | VBool _ | VObject _ => NaN
          | VNumber _ | VString _ | VArray _ => ToNumber x
          end
      | _ => NaN
      end
  end.


(** ** Objects and property access *)

(** A thrown value: an [Error] made by the code with its message, or the
    [TypeError] the language raises on a property read of [null] or
    [undefined]. *)
Inductive Exception : Type :=
| Error (message : string)
| TypeError.

Inductive Outcome (A : Type) : Type :=
| Return (a : A)
| Throw (e : Exception).

Arguments Return {A} a.
Arguments Throw {A} e.

Fixpoint lookupProp (k : string) (ps : list (string * JsVal)) : JsVal :=
  match ps with
  | [] => VUndefined
  | (k', v) :: r => if String.eqb k k' then v else lookupProp k r
  end.

Definition hasProp (k : string) (ps : list (string * JsVal)) : bool :=
  existsb (fun kv => String.eqb k (fst kv)) ps.

(** [obj[k] = v] on the property list: an existing property keeps its
    place, a new one goes last.  The list is in order of creation; the
    order in which JavaScript enumerates the keys, integer-like keys first,
    is not modelled: properties are read by key. *)
Fixpoint setProp (k : string) (v : JsVal) (ps : list (string * JsVal))
  : list (string * JsVal) :=
  match ps with
  | [] => [(k, v)]
  | (k', v') :: r =>
      if String.eqb k k' then (k, v) :: r else (k', v') :: setProp k v r
  end.

Definition indexKey (i : nat) : string :=
  NilEmpty.string_of_uint (Nat.to_uint i).

Definition charsOf (s : string) : list JsVal :=
  map (fun c => VString (String c EmptyString)) (list_ascii_of_string s).

(** The own enumerable properties of a value, as [Object.keys] and
    [Object.assign] see them: the indices of an array or of a string, the
    properties of an object. *)
Definition ownProps (v : JsVal) : list (string * JsVal) :=
  match v with
  | VObject ps => ps
  | VArray l => combine (map indexKey (seq 0 (List.length l))) l
  | VString s =>
      let cs := charsOf s in combine (map indexKey (seq 0 (List.length cs))) cs
  | _ => []
  end.

Definition Object_keys (v : JsVal) : list string := map fst (ownProps v).

(** [Object.assign(target, source)]. *)
Definition Object_assign (target : list (string * JsVal)) (source : JsVal)
  : list (string * JsVal) :=
  fold_left (fun t kv => setProp (fst kv) (snd kv) t) (ownProps source) target.

(** The property read [v.k], for the property names this file reads: none
    of them is [length], an index or a member inherited from a prototype, so
    only an object has them.  Reading a property of [null] or [undefined]
    throws. *)
Definition readProp (v : JsVal) (k : string) : Outcome JsVal :=
  match v with
  | VUndefined | VNull => Throw TypeError
  | VObject ps => Return (lookupProp k ps)
  | _ => Return VUndefined
  end.

(** [v === s] for a string literal [s]. *)
Definition isString (v : JsVal) (s : string) : bool :=
  match v with VString s' => String.eqb s' s | _ => false end.

(** [v == 'launch']: a string compares as a string; a number or a boolean
    compares with [Number('launch')], which is [NaN]; an array compares by
    its string form, the comma-joined strings of its elements, which is
    ['launch'] only for a singleton whose element has that string form; a
    plain object has the string form ['[object Object]']. *)
Fixpoint looseEqualsLaunch (v : JsVal) : bool :=
  match v with
  | VString s => String.eqb s "launch"
  | VArray [x] =>
      match x with
      | VString _ | VArray _ => looseEqualsLaunch x
      | _ => false
      end
  | _ => false
  end.

Definition startsWith (s p : string) : bool := String.prefix p s.

(** ** The setting keys (string literal types of the source) *)

Inductive MigratableConfig : Type :=
| test_executables
| test_workingDirectory
| test_randomGeneratorSeed
| test_runtimeLimit
| test_parallelExecutionLimit
| discovery_gracePeriodForMissing
| discovery_retireDebounceLimit
| discovery_runtimeLimit
| discovery_testListCaching
| debug_configTemplate
| debug_breakOnFailure
| debug_noThrow
| log_logpanel
| log_logfile
| log_logSentry
| log_userId
| gtest_treatGmockWarningAs
| gtest_gmockVerbose.

Inductive Config : Type :=
| test_executable
| Migratable (c : MigratableConfig).

Inductive OldConfig : Type :=
| executables
| defaultCwd
| defaultRngSeed
| defaultWatchTimeoutSec
| retireDebounceTimeMilisec
| defaultRunningTimeoutSec
| defaultExecParsingTimeoutSec
| workerMaxNumber
| debugConfigTemplate
| debugBreakOnFailure
| defaultNoThrow
| logpanel
| logfile
| logSentry
| userId
| enableTestListCaching
| googletest_treatGmockWarningAs
| googletest_gmockVerbose.

Definition MigrationV1V2NamePairs (key : MigratableConfig) : OldConfig :=
  match key with
  | test_executables => executables
  | test_workingDirectory => defaultCwd
  | test_randomGeneratorSeed => defaultRngSeed
  | test_runtimeLimit => defaultRunningTimeoutSec
  | test_parallelExecutionLimit => workerMaxNumber
  | discovery_gracePeriodForMissing => defaultWatchTimeoutSec
  | discovery_retireDebounceLimit => retireDebounceTimeMilisec
  | discovery_runtimeLimit => defaultExecParsingTimeoutSec
  | discovery_testListCaching => enableTestListCaching
  | debug_configTemplate => debugConfigTemplate
  | debug_breakOnFailure => debugBreakOnFailure
  | debug_noThrow => defaultNoThrow
  | log_logpanel => logpanel
  | log_logfile => logfile
  | log_logSentry => logSentry
  | log_userId => userId
  | gtest_treatGmockWarningAs => googletest_treatGmockWarningAs
  | gtest_gmockVerbose => googletest_gmockVerbose
  end.

Definition MigratableConfig_eq_dec (x y : MigratableConfig) : {x = y} + {x <> y}.
Proof. decide equality. Defined.

Definition Config_eq_dec (x y : Config) : {x = y} + {x <> y}.
Proof. decide equality. apply MigratableConfig_eq_dec. Defined.

Definition OldConfig_eq_dec (x y : OldConfig) : {x = y} + {x <> y}.
Proof. decide equality. Defined.

Arguments MigratableConfig_eq_dec : simpl never.
Arguments Config_eq_dec : simpl never.
Arguments OldConfig_eq_dec : simpl never.

(** ** The scoped setting store

    The editor's configuration store ([vscode.WorkspaceConfiguration]) is an
    external collaborator.  It keeps, for each key, a default and one value
    per scope; [inspect] shows the scoped values, [get] gives the effective
    value, [update] requests a write that is applied later. *)

Inductive ConfigurationTarget : Type :=
| Global
| Workspace
| WorkspaceFolder.

Record Inspect : Type := {
  defaultValue : JsVal;
  globalValue : JsVal;
  workspaceValue : JsVal;
  workspaceFolderValue : JsVal
}.

(** Modelled from the spec: the effective value of a setting, which the
    store computes; the most specific scope that is not undefined wins, and
    the default stands when no scope is set. *)
Definition effective (i : Inspect) : JsVal :=
  if negb (isUndefined (workspaceFolderValue i)) then workspaceFolderValue i
  else if negb (isUndefined (workspaceValue i)) then workspaceValue i
  else if negb (isUndefined (globalValue i)) then globalValue i
  else defaultValue i.

Definition setScope (target : ConfigurationTarget) (v : JsVal) (i : Inspect)
  : Inspect :=
  match target with
  | Global =>
      {| defaultValue := defaultValue i; globalValue := v;
         workspaceValue := workspaceValue i;
         workspaceFolderValue := workspaceFolderValue i |}
  | Workspace =>
      {| defaultValue := defaultValue i; globalValue := globalValue i;
         workspaceValue := v;
         workspaceFolderValue := workspaceFolderValue i |}
  | WorkspaceFolder =>
      {| defaultValue := defaultValue i; globalValue := globalValue i;
         workspaceValue := workspaceValue i;
         workspaceFolderValue := v |}
  end.

(** A requested write: the section ([catch2TestExplorer] for the legacy
    keys, [copper] for the new ones) and key, the value ([undefined] removes
    the setting) and the scope. *)
Inductive SettingKey : Type :=
| OldKey (k : OldConfig)
| NewKey (k : Config).

Record Update : Type := {
  updKey : SettingKey;
  updValue : JsVal;
  updTarget : ConfigurationTarget
}.

Inductive LogMethod : Type :=
| debug | info | infoS | infoSMessageWithTags | warn | errorS | setContext.

Record LogEntry : Type := {
  logMethod : LogMethod;
  logMessage : string;
  logArgs : list JsVal
}.

(** What the code reads from the editor besides its own settings. *)
Record Host : Type := {
  workspaceFolderFsPath : string;
  launchConfigurations : JsVal;
  installedExtensions : list string;
  platform : string
}.

Record World : Type := {
  oldSettings : OldConfig -> Inspect;
  newSettings : Config -> Inspect;
  pendingUpdates : list Update;
  logged : list LogEntry;
  host : Host
}.

(** Modelled from the spec: what the store does with a requested write;
    the value replaces the one of the key at the given scope, and a write
    never fails. *)
Definition applyUpdate (u : Update) (w : World) : World :=
  match updKey u with
  | OldKey k =>
      {| oldSettings := fun k' =>
           if OldConfig_eq_dec k k'
           then setScope (updTarget u) (updValue u) (oldSettings w k')
           else oldSettings w k';
         newSettings := newSettings w;
         pendingUpdates := pendingUpdates w;
         logged := logged w;
         host := host w |}
  | NewKey k =>
      {| oldSettings := oldSettings w;
         newSettings := fun k' =>
           if Config_eq_dec k k'
           then setScope (updTarget u) (updValue u) (newSettings w k')
           else newSettings w k';
         pendingUpdates := pendingUpdates w;
         logged := logged w;
         host := host w |}
  end.

Definition applyUpdates (us : list Update) (w : World) : World :=
  fold_left (fun w' u => applyUpdate u w') us w.

Definition clearPending (w : World) : World :=
  {| oldSettings := oldSettings w;
     newSettings := newSettings w;
     pendingUpdates := [];
     logged := logged w;
     host := host w |}.

(** Modelled from the spec: the world once every requested write has been
    applied; the store applies the writes in the order they were issued. *)
Definition settle (w : World) : World :=
  applyUpdates (pendingUpdates w) (clearPending w).

(** ** Computations: a state over the world, with exceptions *)

Definition M (A : Type) : Type := World -> Outcome A * World.

Definition ret {A : Type} (a : A) : M A := fun w => (Return a, w).

Definition throw {A : Type} (e : Exception) : M A := fun w => (Throw e, w).

Definition bind {A B : Type} (m : M A) (f : A -> M B) : M B :=
  fun w =>
    match m w with
    | (Return a, w') => f a w'
    | (Throw e, w') => (Throw e, w')
    end.

Declare Scope cfg_scope.
Delimit Scope cfg_scope with cfg.
Notation "x <- m ;; k" := (bind m (fun x => k))
  (at level 61, m at next level, right associativity) : cfg_scope.
Notation "m ;; k" := (bind m (fun _ => k))
  (at level 61, right associativity) : cfg_scope.
Local Open Scope cfg_scope.

Definition lift {A : Type} (o : Outcome A) : M A := fun w => (o, w).

Definition getProp (v : JsVal) (k : string) : M JsVal := lift (readProp v k).

Definition getHost : M Host := fun w => (Return (host w), w).

Definition log (m : LogMethod) (msg : string) (args : list JsVal) : M unit :=
  fun w =>
    (Return tt,
     {| oldSettings := oldSettings w;
        newSettings := newSettings w;
        pendingUpdates := pendingUpdates w;
        logged := logged w ++
                  [{| logMethod := m; logMessage := msg; logArgs := args |}];
        host := host w |}).

Definition request (u : Update) : M unit :=
  fun w =>
    (Return tt,
     {| oldSettings := oldSettings w;
        newSettings := newSettings w;
        pendingUpdates := pendingUpdates w ++ [u];
        logged := logged w;
        host := host w |}).

(** [this._old.inspect(key)], [this._old.get(key)], [this._old.update(..)]
    and the same on [this._new]. *)
Definition _old_inspect (key : OldConfig) : M (option Inspect) :=
  fun w => (Return (Some (oldSettings w key)), w).

Definition _old_get (key : OldConfig) : M JsVal :=
  fun w => (Return (effective (oldSettings w key)), w).

Definition _new_get (key : Config) : M JsVal :=
  fun w => (Return (effective (newSettings w key)), w).

Definition _old_update (key : OldConfig) (v : JsVal)
  (target : ConfigurationTarget) : M unit :=
  request {| updKey := OldKey key; updValue := v; updTarget := target |}.

Definition _new_update (key : Config) (v : JsVal)
  (target : ConfigurationTarget) : M unit :=
  request {| updKey := NewKey key; updValue := v; updTarget := target |}.

(** [await] on the promise of the update issued last. *)
Definition await : M unit := fun w => (Return tt, settle w).

(** The numeric value of the [vscode.ConfigurationTarget] enumeration. *)
Definition targetValue (t : ConfigurationTarget) : JsVal :=
  match t with
  | Global => VNumber (integer 1)
  | Workspace => VNumber (integer 2)
  | WorkspaceFolder => VNumber (integer 3)
  end.

(** ** Resolution with migration *)

Definition _isDefinedConfig (config : option Inspect) : bool :=
  match config with
  | None => false
  | Some c =>
      negb (isUndefined (globalValue c))
      || negb (isUndefined (workspaceValue c))
      || negb (isUndefined (workspaceFolderValue c))
  end.

Definition _getNewOrOldAndMigrate (newName : MigratableConfig) : M JsVal :=
  let oldName := MigrationV1V2NamePairs newName in
  oldVals <- _old_inspect oldName ;;
  match oldVals with
  | Some vals =>
      if _isDefinedConfig oldVals then
        _new_update (Migratable newName) (globalValue vals) Global ;;
        _new_update (Migratable newName) (workspaceValue vals) Workspace ;;
        _new_update (Migratable newName) (workspaceFolderValue vals)
          WorkspaceFolder ;;
        oldVal <- _old_get oldName ;;
        _old_update oldName VUndefined Global ;;
        _old_update oldName VUndefined Workspace ;;
        _old_update oldName VUndefined WorkspaceFolder ;;
        ret oldVal
      else _new_get (Migratable newName)
  | None => _new_get (Migratable newName)
  end.

Definition _getNewOrOldOrDefAndMigrate (newName : MigratableConfig)
  (defaultValue : JsVal) : M JsVal :=
  val <- _getNewOrOldAndMigrate newName ;;
  if negb (isUndefined val) then ret val else ret defaultValue.

(** The constructor forces the migration of the two log settings. *)
Definition constructor : M unit :=
  _getNewOrOldAndMigrate log_logpanel ;;
  _getNewOrOldAndMigrate log_logfile ;;
  ret tt.

(** ** Derived accessors *)

Definition getDefaultCwd : M JsVal :=
  h <- getHost ;;
  let dirname := workspaceFolderFsPath h in
  _getNewOrOldOrDefAndMigrate test_workingDirectory (VString dirname).

Definition getRandomGeneratorSeed : M JsVal :=
  val <- _getNewOrOldOrDefAndMigrate test_randomGeneratorSeed (VString "time") ;;
  if isString val "time" then ret val
  else if isString val "" then ret VNull
  else
    let num := ToNumber val in
    if negb (Number_isNaN num) then ret (VNumber num) else ret VNull.

Definition getParallelExecutionLimit : M number :=
  raw <- _getNewOrOldOrDefAndMigrate test_parallelExecutionLimit
           (VNumber (integer 1)) ;;
  let res := Math_max (integer 1) (ToNumber raw) in
  if negb (String.eqb (typeof (VNumber res)) "number") then ret (integer 1)
  else
    (if number_gt res (integer 1)
     then log infoS "workerMaxNumber" [VNumber (integer 1)]
     else ret tt) ;;
    ret res.

(** ** Executable settings *)

(** The framework specific part of an executable configuration; an absent
    property is [None]. *)
Record ExecutableConfigFrameworkSpecific : Type := {
  helpRegex : option string;
  prependTestRunningArgs : option (list JsVal);
  prependTestListingArgs : option (list JsVal);
  ignoreTestEnumerationStdErr : option JsVal;
  testGrouping : option JsVal
}.

Definition emptyFrameworkSpecific : ExecutableConfigFrameworkSpecific :=
  {| helpRegex := None;
     prependTestRunningArgs := None;
     prependTestListingArgs := None;
     ignoreTestEnumerationStdErr := None;
     testGrouping := None |}.

Section Executables.

Context {SharedVariables ResolveRulePair : Type}.

(** The arguments of [new ExecutableConfig(...)], in order.  The class
    itself is declared in another module; the configuration code only
    builds it. *)
Record ExecutableConfig : Type := {
  _shared : SharedVariables;
  _pattern : string;
  _name : JsVal;
  _description : JsVal;
  _cwd : JsVal;
  _env : JsVal;
  _dependsOn : list JsVal;
  _parallelizationLimit : number;
  _defaultCwd : JsVal;
  _variableToValue : list ResolveRulePair;
  _catch2 : ExecutableConfigFrameworkSpecific;
  _gtest : ExecutableConfigFrameworkSpecific;
  _doctest : ExecutableConfigFrameworkSpecific
}.

Variable shared : SharedVariables.
Variable variableToValue : list ResolveRulePair.

(** The [update] closure of [migrate]: the two writes to the new keys are
    awaited, the removal of the legacy key is not. *)
Definition migrateUpdate (target : ConfigurationTarget)
  (simpleVal val : JsVal) : M unit :=
  let newNameSimple := test_executable in
  let newName := test_executables in
  _new_update newNameSimple simpleVal target ;; await ;;
  _new_update (Migratable newName) val target ;; await ;;
  _old_update (MigrationV1V2NamePairs newName) VUndefined target.

(** The loop of [migrate] over the elements of a legacy array. *)
Fixpoint migrateElements (oldVal : JsVal) (target : ConfigurationTarget)
  (vs : list JsVal) (newVals : list JsVal) : M (list JsVal) :=
  match vs with
  | [] => ret newVals
  | v :: rest =>
      if String.eqb (typeof v) "string" then
        migrateElements oldVal target rest
          (newVals ++ [VObject [("pattern", v)]])
      else if String.eqb (typeof v) "object" then
        migrateElements oldVal target rest (newVals ++ [v])
      else
        log errorS "unhandled config case" [v; oldVal; targetValue target] ;;
        migrateElements oldVal target rest newVals
  end.

Definition migrate (oldVal : JsVal) (target : ConfigurationTarget) : M unit :=
  if isUndefined oldVal then ret tt
  else if isNull oldVal then migrateUpdate target (VString "") VUndefined
  else if String.eqb (typeof oldVal) "string" then
    migrateUpdate target oldVal VUndefined
  else
    match oldVal with
    | VArray vs =>
        newVals <- migrateElements oldVal target vs [] ;;
        if (List.length newVals =? 0)%nat then
          migrateUpdate target (VString "") VUndefined
        else if ((List.length newVals =? 1)%nat
                 && (List.length (Object_keys (VArray newVals)) =? 1)%nat)
        then
          pattern <- getProp (nth 0 newVals VUndefined) "pattern" ;;
          if negb (isUndefined pattern)
          then migrateUpdate target pattern VUndefined
          else migrateUpdate target VUndefined (VArray newVals)
        else migrateUpdate target VUndefined (VArray newVals)
    | _ =>
        log errorS "unhandled config case" [oldVal; targetValue target]
    end.

(** The first block of [getExecutables]: the legacy [executables] setting
    is migrated scope by scope. *)
Definition migrateLegacyExecutables : M unit :=
  oldVals <- _old_inspect executables ;;
  match oldVals with
  | Some vals =>
      if _isDefinedConfig oldVals then
        migrate (globalValue vals) Global ;;
        migrate (workspaceValue vals) Workspace ;;
        migrate (workspaceFolderValue vals) WorkspaceFolder
      else ret tt
  | None => ret tt
  end.

Definition createExecutableConfigFromPattern (defaultCwd : JsVal)
  (pattern : string) : ExecutableConfig :=
  {| _shared := shared;
     _pattern := pattern;
     _name := VUndefined;
     _description := VUndefined;
     _cwd := VUndefined;
     _env := VUndefined;
     _dependsOn := [];
     _parallelizationLimit := integer 1;
     _defaultCwd := defaultCwd;
     _variableToValue := variableToValue;
     _catch2 := emptyFrameworkSpecific;
     _gtest := emptyFrameworkSpecific;
     _doctest := emptyFrameworkSpecific |}.

Definition isStringValue (v : JsVal) : bool := String.eqb (typeof v) "string".

Definition stringOf (v : JsVal) : string :=
  match v with VString s => s | _ => "" end.

(** An array whose elements are all strings, else [None]. *)
Definition stringArray (v : JsVal) : option (list JsVal) :=
  match v with
  | VArray l => if forallb isStringValue l then Some l else None
  | _ => None
  end.

(** The [framework] closure of [createExecutableConfigFromObj]. *)
Definition framework (testGrouping : JsVal) (obj : JsVal)
  : M ExecutableConfigFrameworkSpecific :=
  if String.eqb (typeof obj) "object" then
    helpRegex <- getProp obj "helpRegex" ;;
    running <- getProp obj "prependTestRunningArgs" ;;
    listing <- getProp obj "prependTestListingArgs" ;;
    ignoreStdErr <- getProp obj "ignoreTestEnumerationStdErr" ;;
    grouping <- getProp obj "testGrouping" ;;
    ret {| helpRegex :=
             if isStringValue helpRegex then Some (stringOf helpRegex)
             else None;
           prependTestRunningArgs := stringArray running;
           prependTestListingArgs := stringArray listing;
           ignoreTestEnumerationStdErr :=
             if truthy ignoreStdErr then Some ignoreStdErr else None;
           testGrouping :=
             if truthy grouping then Some grouping
             else if truthy testGrouping then Some testGrouping
             else None |}
  else ret emptyFrameworkSpecific.

Definition createExecutableConfigFromObj (defaultCwd : JsVal) (obj : JsVal)
  : M ExecutableConfig :=
  objName <- getProp obj "name" ;;
  let name := if isStringValue objName then objName else VUndefined in
  objDescription <- getProp obj "description" ;;
  let description :=
    if isStringValue objDescription then objDescription else VUndefined in
  objPattern <- getProp obj "pattern" ;;
  pattern <-
    (if isStringValue objPattern then ret (stringOf objPattern)
     else
       log debug "pattern property is required" [obj] ;;
       throw (Error "pattern property is required.")) ;;
  objCwd <- getProp obj "cwd" ;;
  let cwd := if isStringValue objCwd then objCwd else VUndefined in
  objEnv <- getProp obj "env" ;;
  let env :=
    if String.eqb (typeof objEnv) "object" then objEnv else VUndefined in
  objDependsOn <- getProp obj "dependsOn" ;;
  let dependsOn :=
    match objDependsOn with
    | VArray l => filter isStringValue l
    | _ => []
    end in
  objLimit <- getProp obj "parallelizationLimit" ;;
  let parallelizationLimit :=
    match objLimit with
    | VNumber n => n
    | _ => integer 1
    end in
  objGrouping <- getProp obj "testGrouping" ;;
  let testGrouping := if truthy objGrouping then objGrouping else VUndefined in
  objCatch2 <- getProp obj "catch2" ;;
  catch2 <- framework testGrouping objCatch2 ;;
  objGtest <- getProp obj "gtest" ;;
  gtest <- framework testGrouping objGtest ;;
  objDoctest <- getProp obj "doctest" ;;
  doctest <- framework testGrouping objDoctest ;;
  ret {| _shared := shared;
         _pattern := pattern;
         _name := name;
         _description := description;
         _cwd := cwd;
         _env := env;
         _dependsOn := dependsOn;
         _parallelizationLimit := parallelizationLimit;
         _defaultCwd := defaultCwd;
         _variableToValue := variableToValue;
         _catch2 := catch2;
         _gtest := gtest;
         _doctest := doctest |}.

(** The loop of [getExecutables] over the elements of [test.executables]. *)
Fixpoint createExecutableConfigs (defaultCwd : JsVal) (confs : list JsVal)
  (executables : list ExecutableConfig) : M (list ExecutableConfig) :=
  match confs with
  | [] => ret executables
  | conf :: rest =>
      if String.eqb (typeof conf) "string" then
        createExecutableConfigs defaultCwd rest
          (executables
           ++ [createExecutableConfigFromPattern defaultCwd (stringOf conf)])
      else
        c <- createExecutableConfigFromObj defaultCwd conf ;;
        createExecutableConfigs defaultCwd rest (executables ++ [c])
  end.

Definition defaultPattern : string :=
  "{build,Build,BUILD,out,Out,OUT}/**/*{test,Test,TEST}*".

(** What [getExecutables] does once the legacy setting is migrated. *)
Definition expandExecutables : M (list ExecutableConfig) :=
  cwd <- getDefaultCwd ;;
  let defaultCwd := if truthy cwd then cwd else VString "${absDirpath}" in
  configExecs <- _new_get (Migratable test_executables) ;;
  match configExecs with
  | VUndefined | VArray [] =>
      log info
        "`test.executables` is not defined. trying to use `test.executable`"
        [] ;;
      simpleConfig <- _new_get test_executable ;;
      if isUndefined simpleConfig then
        ret [createExecutableConfigFromPattern defaultCwd defaultPattern]
      else if String.eqb (typeof simpleConfig) "string" then
        if (String.length (stringOf simpleConfig) =? 0)%nat then ret []
        else
          ret [createExecutableConfigFromPattern defaultCwd
                 (stringOf simpleConfig)]
      else
        log warn "test.executable should be an string or undefined"
          [simpleConfig] ;;
        throw (Error "`test.executable` couldn't be recognised. It should be a string. For fine-tuning use `test.executables`.")
  | VArray confs =>
      log setContext "executables" [VObject [("executables", configExecs)]] ;;
      createExecutableConfigs defaultCwd confs []
  | _ =>
      log warn "test.executables should be an array or undefined"
        [configExecs] ;;
      throw (Error "`test.executables` couldn't be recognised")
  end.

Definition getExecutables : M (list ExecutableConfig) :=
  migrateLegacyExecutables ;;
  expandExecutables.

End Executables.

Arguments ExecutableConfig : clear implicits.

(** ** Debug configuration template *)

Definition DebugConfiguration : Type := list (string * JsVal).

(** [vscode.extensions.getExtension(id)], as a truth value. *)
Definition getExtension (id : string) : M bool :=
  h <- getHost ;;
  ret (existsb (String.eqb id) (installedExtensions h)).

(** The test of the loop over the launch configurations. *)
Definition isLaunchCandidate (c : JsVal) : M bool :=
  request <- getProp c "request" ;;
  if looseEqualsLaunch request then
    type <- getProp c "type" ;;
    if String.eqb (typeof type) "string" then
      ret (startsWith (stringOf type) "cpp"
           || startsWith (stringOf type) "lldb"
           || startsWith (stringOf type) "gdb")
    else ret false
  else ret false.

(** The loop over the launch configurations: the first candidate gives the
    template. *)
Fixpoint scanLaunchConfigs (wpLaunchConfigs : list JsVal)
  : M (option DebugConfiguration) :=
  match wpLaunchConfigs with
  | [] => ret None
  | c :: rest =>
      found <- isLaunchCandidate c ;;
      if found then
        let debugConfig :=
          Object_assign (Object_assign [] c)
            (VObject [("name", VString "${label} (${suiteLabel})");
                      ("program", VString "${exec}");
                      ("target", VString "${exec}");
                      ("arguments", VString "${argsStr}");
                      ("args", VString "${args}");
                      ("cwd", VString "${cwd}");
                      ("env", VString "${envObj}")]) in
        log infoS "using debug cofing from launch.json" [] ;;
        log debug
          "using debug config from launch.json. If it doesn't work for you please read the manual: https://github.com/matepek/vscode-catch2-test-adapter#or-user-can-manually-fill-it"
          [VObject debugConfig] ;;
        ret (Some debugConfig)
      else scanLaunchConfigs rest
  end.

Definition baseTemplate : DebugConfiguration :=
  [("name", VString "${label} (${suiteLabel})");
   ("request", VString "launch");
   ("type", VString "cppdbg")].

Definition extensionTag (id : string) : JsVal :=
  VObject [("extension", VString id)].

Definition noTemplateMessage : string :=
  "For debugging 'copper.debug.configTemplate' should be set: https://github.com/matepek/vscode-catch2-test-adapter#or-user-can-manually-fill-it".

(** The last part of [getDebugConfigurationTemplate]: a template for the
    first installed debug extension. *)
Definition templateFromExtensions : M DebugConfiguration :=
  let template := baseTemplate in
  lldb <- getExtension "vadimcn.vscode-lldb" ;;
  if lldb then
    log infoSMessageWithTags "using debug extension"
      [extensionTag "vadimcn.vscode-lldb"] ;;
    ret (Object_assign template
           (VObject [("type", VString "cppdbg");
                     ("MIMode", VString "lldb");
                     ("program", VString "${exec}");
                     ("args", VString "${args}");
                     ("cwd", VString "${cwd}");
                     ("env", VString "${envObj}")]))
  else
    webfreak <- getExtension "webfreak.debug" ;;
    if webfreak then
      log infoSMessageWithTags "using debug extension"
        [extensionTag "webfreak.debug"] ;;
      let template :=
        Object_assign template
          (VObject [("type", VString "gdb");
                    ("target", VString "${exec}");
                    ("arguments", VString "${argsStr}");
                    ("cwd", VString "${cwd}");
                    ("env", VString "${envObj}");
                    ("valuesFormatting", VString "prettyPrinters")]) in
      h <- getHost ;;
      if String.eqb (platform h) "darwin" then
        ret (setProp "lldbmipath"
               (VString "/Applications/Xcode.app/Contents/Developer/usr/bin/lldb-mi")
               (setProp "type" (VString "lldb-mi") template))
      else ret template
    else
      cpptools <- getExtension "ms-vscode.cpptools" ;;
      if cpptools then
        log infoSMessageWithTags "using debug extension"
          [extensionTag "ms-vscode.cpptools"] ;;
        ret (Object_assign template
               (VObject [("type", VString "cppvsdbg");
                         ("linux", VObject [("type", VString "cppdbg");
                                            ("MIMode", VString "gdb")]);
                         ("osx", VObject [("type", VString "cppdbg");
                                          ("MIMode", VString "lldb")]);
                         ("windows", VObject [("type", VString "cppvsdbg")]);
                         ("program", VString "${exec}");
                         ("args", VString "${args}");
                         ("cwd", VString "${cwd}");
                         ("env", VString "${envObj}")]))
      else
        log info "no debug config" [] ;;
        throw (Error noTemplateMessage).

Definition getDebugConfigurationTemplate : M DebugConfiguration :=
  templateFromConfig <- _getNewOrOldOrDefAndMigrate debug_configTemplate VNull ;;
  if String.eqb (typeof templateFromConfig) "object"
     && negb (isNull templateFromConfig)
  then
    let debugConfig := Object_assign baseTemplate templateFromConfig in
    log infoS "using user defined debug config" [] ;;
    log debug "debugConfig" [VObject debugConfig] ;;
    ret debugConfig
  else
    fromLaunch <-
      (if isNull templateFromConfig then
         h <- getHost ;;
         let wpLaunchConfigs := launchConfigurations h in
         match wpLaunchConfigs with
         | VArray l =>
             if (0 <? List.length l)%nat then scanLaunchConfigs l
             else ret None
         | _ => ret None
         end
       else ret None) ;;
    match fromLaunch with
    | Some debugConfig => ret debugConfig
    | None => templateFromExtensions
    end.

(** ** Sample worlds *)

Definition unset : Inspect :=
  {| defaultValue := VUndefined;
     globalValue := VUndefined;
     workspaceValue := VUndefined;
     workspaceFolderValue := VUndefined |}.

Definition plainHost : Host :=
  {| workspaceFolderFsPath := "/ws";
     launchConfigurations := VUndefined;
     installedExtensions := [];
     platform := "linux" |}.

(** A world where no setting is set and no write is under way. *)
Definition freshWorld (h : Host) : World :=
  {| oldSettings := fun _ => unset;
     newSettings := fun _ => unset;
     pendingUpdates := [];
     logged := [];
     host := h |}.

(** A setting as the user wrote it in a settings file of some scope. *)
Definition withOld (k : OldConfig) (t : ConfigurationTarget) (v : JsVal)
  (w : World) : World :=
  applyUpdate {| updKey := OldKey k; updValue := v; updTarget := t |} w.

Definition withNew (k : Config) (t : ConfigurationTarget) (v : JsVal)
  (w : World) : World :=
  applyUpdate {| updKey := NewKey k; updValue := v; updTarget := t |} w.

(** The six writes a migration of [newName] issues for the inspected
    legacy values [vals]. *)
Definition migrationUpdates (newName : MigratableConfig) (vals : Inspect)
  : list Update :=
  let oldName := MigrationV1V2NamePairs newName in
  [ {| updKey := NewKey (Migratable newName);
       updValue := globalValue vals; updTarget := Global |};
    {| updKey := NewKey (Migratable newName);
       updValue := workspaceValue vals; updTarget := Workspace |};
    {| updKey := NewKey (Migratable newName);
       updValue := workspaceFolderValue vals; updTarget := WorkspaceFolder |};
    {| updKey := OldKey oldName;
       updValue := VUndefined; updTarget := Global |};
    {| updKey := OldKey oldName;
       updValue := VUndefined; updTarget := Workspace |};
    {| updKey := OldKey oldName;
       updValue := VUndefined; updTarget := WorkspaceFolder |} ].

Definition addPending (us : list Update) (w : World) : World :=
  {| oldSettings := oldSettings w;
     newSettings := newSettings w;
     pendingUpdates := pendingUpdates w ++ us;
     logged := logged w;
     host := host w |}.

Definition scopesUndefined (i : Inspect) : Prop :=
  globalValue i = VUndefined
  /\ workspaceValue i = VUndefined
  /\ workspaceFolderValue i = VUndefined.

(** ** Elements of [test.executables] *)

(** An element from which a configuration is built: a string, or an object
    with a string [pattern] whose framework blocks are not [null]. *)
Definition acceptedElement (conf : JsVal) : bool :=
  match conf with
  | VString _ => true
  | VObject ps =>
      isStringValue (lookupProp "pattern" ps)
      && negb (isNull (lookupProp "catch2" ps))
      && negb (isNull (lookupProp "gtest" ps))
      && negb (isNull (lookupProp "doctest" ps))
  | _ => false
  end.

(** The pattern an element asks for. *)
Definition elementPattern (conf : JsVal) : JsVal :=
  match conf with
  | VString _ => conf
  | VObject ps => lookupProp "pattern" ps
  | _ => VUndefined
  end.

(** The parallelization limit an element asks for: the number it gives,
    else 1. *)
Definition elementLimit (conf : JsVal) : number :=
  match conf with
  | VObject ps =>
      match lookupProp "parallelizationLimit" ps with
      | VNumber n => n
      | _ => integer 1
      end
  | _ => integer 1
  end.

(** [n >= 1] on numbers. *)
Definition atLeastOne (n : number) : bool :=
  match n with
  | NaN => false
  | _ => negb (number_lt n (integer 1))
  end.

(** ** Debug template: the cases of the resolution *)






Definition isNonNullObject (v : JsVal) : bool :=
  String.eqb (typeof v) "object" && negb (isNull v).




(** ** Decimal digit strings *)

Definition isDecimalDigit (c : ascii) : bool :=
  let n := nat_of_ascii c in ((48 <=? n) && (n <=? 57))%nat.

Definition digitOf (c : ascii) : Z := Z.of_nat (nat_of_ascii c) - 48.

(** The number a string of decimal digits denotes, with the accumulator
    in front. *)
Definition decimalValue (acc : Z) (ds : list ascii) : Z :=
  fold_left (fun a c => (10 * a + digitOf c)%Z) ds acc.

(** ** Legacy array: the normalized form *)

(** What the loop of [migrate] keeps of one element of a legacy array: a
    string becomes an object with that pattern, an object stays, anything
    else is left out. *)
Definition normalizeLegacyElement (v : JsVal) : list JsVal :=
  if String.eqb (typeof v) "string" then [VObject [("pattern", v)]]
  else if String.eqb (typeof v) "object" then [v]
  else [].

Definition normalizeLegacyArray (vs : list JsVal) : list JsVal :=
  flat_map normalizeLegacyElement vs.

(** The elements the loop reports and leaves out. *)
Definition skippedLegacyElements (vs : list JsVal) : list JsVal :=
  filter (fun v => negb (String.eqb (typeof v) "string")
                   && negb (String.eqb (typeof v) "object")) vs.

Definition addLogged (es : list LogEntry) (w : World) : World :=
  {| oldSettings := oldSettings w;
     newSettings := newSettings w;
     pendingUpdates := pendingUpdates w;
     logged := logged w ++ es;
     host := host w |}.

(** ** The other accessors *)

(** [a * b] on numbers. *)
Definition number_mul (a b : number) : number :=
  match a, b with
  | NaN, _ | _, NaN => NaN
  | Finite x, Finite y => Finite (Qred (x * y))
  | Infinity s, Infinity t => Infinity (xorb s t)
  | Infinity s, Finite y | Finite y, Infinity s =>
      match Qcompare y 0 with
      | Eq => NaN
      | Lt => Infinity (negb s)
      | Gt => Infinity s
      end
  end.

Definition getDebugBreakOnFailure : M JsVal :=
  _getNewOrOldOrDefAndMigrate debug_breakOnFailure (VBool true).

Definition getDefaultNoThrow : M JsVal :=
  _getNewOrOldOrDefAndMigrate debug_noThrow (VBool false).

Definition getExecWatchTimeout : M number :=
  r <- _getNewOrOldOrDefAndMigrate discovery_gracePeriodForMissing
         (VNumber (integer 10)) ;;
  let res := number_mul (ToNumber r) (integer 1000) in
  ret res.

Definition getRetireDebounceTime : M JsVal :=
  res <- _getNewOrOldOrDefAndMigrate discovery_retireDebounceLimit
           (VNumber (integer 1000)) ;;
  ret res.


Definition getExecParsingTimeout : M number :=
  r <- _getNewOrOldOrDefAndMigrate discovery_runtimeLimit
         (VNumber (integer 5)) ;;
  ret (number_mul (ToNumber r) (integer 1000)).

Definition getEnableTestListCaching : M JsVal :=
  _getNewOrOldOrDefAndMigrate discovery_testListCaching (VBool false).

Definition getGoogleTestTreatGMockWarningAs : M JsVal :=
  _getNewOrOldOrDefAndMigrate gtest_treatGmockWarningAs (VString "nothing").

Definition getGoogleTestGMockVerbose : M JsVal :=
  _getNewOrOldOrDefAndMigrate gtest_gmockVerbose (VString "default").

(** ** Sentry consent *)


Definition consentYes : string :=
  "Sure! I love this extension and happy to help.".

Definition consentNo : string := "Over my dead body (No)".

(** [askSentryConsent], with the value the information message resolves
    to when it is shown: the option the user picked, or [undefined] for a
    dismissed message.  The handler of the answer logs it and requests at
    most one write; showing the message itself leaves no other trace. *)
Definition askSentryConsent (value : JsVal) : M unit :=
  let logSentryConfig := log_logSentry in
  logSentry <- _getNewOrOldOrDefAndMigrate logSentryConfig (VString "question") ;;
  if isString logSentry "question" || isString logSentry "disable"
     || isString logSentry "disable_1" || isString logSentry "disable_2"
  then
    let options := [consentYes; consentNo] in
    log info "Sentry consent" [value] ;;
    if isString value (nth 0 options "") then
      _new_update (Migratable logSentryConfig) (VString "enable") Global
    else if isString value (nth 1 options "") then
      _new_update (Migratable logSentryConfig) (VString "disable_3") Global
    else ret tt
  else ret tt.

(** ** User identifier *)

Section UserId.

(** [hashString] is declared in another module; [env] reads a variable of
    the process environment, a string when it is set; the last three are
    the decimal strings of [performance.now()], [process.pid] and
    [Date.now()] at the time of the call. *)
Variable hashString : string -> string.
Variable env : string -> option string.
Variable performanceNow : string.
Variable pid : string.
Variable dateNow : string.

(** An environment variable in a string concatenation. *)
Definition envText (v : option string) : string :=
  match v with Some s => s | None => "undefined" end.

Definition envTruthy (v : option string) : bool :=
  match v with Some s => negb (String.eqb s "") | None => false end.

Definition getOrCreateUserId : M JsVal :=
  userId <- _getNewOrOldAndMigrate log_userId ;;
  if truthy userId then ret userId
  else
    let user :=
      if envTruthy (env "USER") then envText (env "USER")
      else if envTruthy (env "USERNAME") then envText (env "USERNAME")
      else "user" in
    let newUserId := user ++ envText (env "USERDOMAIN") in
    let newUserId := newUserId ++ performanceNow in
    let newUserId := newUserId ++ pid in
    let newUserId := newUserId ++ dateNow in
    let userId := hashString newUserId in
    _new_update (Migratable log_userId) (VString userId) Global ;;
    ret (VString userId).

End UserId.

(** ** Statements about the state of settings *)

(** The state of the two keys of a setting once a resolution made with
    no write under way is applied: the legacy key is undefined at the three
    scopes; the new key holds the legacy values if there were any and is
    left alone otherwise. *)
Definition migratedFrom (w w' : World) (newName : MigratableConfig) : Prop :=
  let vals := oldSettings w (MigrationV1V2NamePairs newName) in
  scopesUndefined (oldSettings w' (MigrationV1V2NamePairs newName))
  /\ (_isDefinedConfig (Some vals) = true ->
      globalValue (newSettings w' (Migratable newName)) = globalValue vals
      /\ workspaceValue (newSettings w' (Migratable newName))
         = workspaceValue vals
      /\ workspaceFolderValue (newSettings w' (Migratable newName))
         = workspaceFolderValue vals)
  /\ (_isDefinedConfig (Some vals) = false ->
      newSettings w' (Migratable newName) = newSettings w (Migratable newName)).

(** The settings for which [askSentryConsent] shows its message. *)
Definition consentIsAsked (logSentry : JsVal) : bool :=
  isString logSentry "question" || isString logSentry "disable"
  || isString logSentry "disable_1" || isString logSentry "disable_2".

(** A setting whose legacy key and new key are not set in the workspace
    nor in the workspace folder. *)
Definition userLevelOnly (w : World) (newName : MigratableConfig) : Prop :=
  workspaceValue (oldSettings w (MigrationV1V2NamePairs newName)) = VUndefined
  /\ workspaceFolderValue (oldSettings w (MigrationV1V2NamePairs newName))
     = VUndefined
  /\ workspaceValue (newSettings w (Migratable newName)) = VUndefined
  /\ workspaceFolderValue (newSettings w (Migratable newName)) = VUndefined.

Definition globalUpdate (newName : MigratableConfig) (v : JsVal) : Update :=
  {| updKey := NewKey (Migratable newName);
     updValue := v; updTarget := Global |}.

Definition scopeValue (t : ConfigurationTarget) (i : Inspect) : JsVal :=
  match t with
  | Global => globalValue i
  | Workspace => workspaceValue i
  | WorkspaceFolder => workspaceFolderValue i
  end.

(** A legacy [executables] value of a simple form: unset, [null] or a
    string. *)
Definition isSimpleLegacy (v : JsVal) : bool :=
  isUndefined v || isNull v || String.eqb (typeof v) "string".

(** The simple pattern a simple legacy value stands for: [null] means
    disabled, which the new setting writes as the empty string. *)
Definition simplePatternOf (v : JsVal) : JsVal :=
  if isNull v then VString "" else v.

(** The three writes of the [update] closure of [migrate]. *)
Definition executablesUpdates (t : ConfigurationTarget)
  (simpleVal val : JsVal) : list Update :=
  [ {| updKey := NewKey test_executable;
       updValue := simpleVal; updTarget := t |};
    {| updKey := NewKey (Migratable test_executables);
       updValue := val; updTarget := t |};
    {| updKey := OldKey executables;
       updValue := VUndefined; updTarget := t |} ].

Definition simpleLegacyUpdates (v : JsVal) (t : ConfigurationTarget)
  : list Update :=
  if isUndefined v then []
  else executablesUpdates t (simplePatternOf v) VUndefined.

(** The error an element of [test.executables] runs into, if any: a
    property read of [null], a missing string [pattern], or a framework
    block that is [null]. *)
Definition elementError (conf : JsVal) : option Exception :=
  match conf with
  | VString _ => None
  | VUndefined | VNull => Some TypeError
  | VObject ps =>
      if negb (isStringValue (lookupProp "pattern" ps))
      then Some (Error "pattern property is required.")
      else if isNull (lookupProp "catch2" ps)
              || isNull (lookupProp "gtest" ps)
              || isNull (lookupProp "doctest" ps)
      then Some TypeError
      else None
  | _ => Some (Error "pattern property is required.")
  end.

Definition hasNoError (conf : JsVal) : bool :=
  match elementError conf with None => true | Some _ => false end.

Definition stringOrUndefined (v : JsVal) : bool :=
  isUndefined v || isStringValue v.

(** What every configuration handed to the rest of the extension
    satisfies. *)
Definition normalizedConfig {SharedVariables ResolveRulePair : Type}
  (c : ExecutableConfig SharedVariables ResolveRulePair) : bool :=
  truthy (_defaultCwd c)
  && stringOrUndefined (_name c)
  && stringOrUndefined (_description c)
  && stringOrUndefined (_cwd c)
  && (isUndefined (_env c) || String.eqb (typeof (_env c)) "object")
  && forallb isStringValue (_dependsOn c).

(** The property of a framework block, when the block is an object. *)
Definition blockProp (block : JsVal) (k : string) : JsVal :=
  match block with VObject ps => lookupProp k ps | _ => VUndefined end.


Definition installed (h : Host) (id : string) : bool :=
  existsb (String.eqb id) (installedExtensions h).

(** A string of ASCII characters only. *)
Definition isAsciiString (s : string) : bool :=
  forallb (fun c => (nat_of_ascii c <? 128)%nat) (list_ascii_of_string s).

(** A configuration that only has a pattern: what
    [createExecutableConfigFromPattern] is called to build, field by
    field. *)
Definition isPatternOnlyConfig {SharedVariables ResolveRulePair : Type}
  (shared : SharedVariables) (variableToValue : list ResolveRulePair)
  (defaultCwd : JsVal) (pattern : string)
  (c : ExecutableConfig SharedVariables ResolveRulePair) : Prop :=
  _shared c = shared
  /\ _pattern c = pattern
  /\ _name c = VUndefined
  /\ _description c = VUndefined
  /\ _cwd c = VUndefined
  /\ _env c = VUndefined
  /\ _dependsOn c = []
  /\ _parallelizationLimit c = integer 1
  /\ _defaultCwd c = defaultCwd
  /\ _variableToValue c = variableToValue
  /\ _catch2 c = emptyFrameworkSpecific
  /\ _gtest c = emptyFrameworkSpecific
  /\ _doctest c = emptyFrameworkSpecific.

(** * Properties *)

(** ** The store *)

Lemma isUndefined_true (v : JsVal) : isUndefined v = true <-> v = VUndefined.
Proof. destruct v; simpl; split; intro H; congruence. Qed.

Lemma isUndefined_false (v : JsVal) : isUndefined v = false <-> v <> VUndefined.
Proof. destruct v; simpl; split; intro H; congruence. Qed.

Lemma _isDefinedConfig_false (i : Inspect) :
  _isDefinedConfig (Some i) = false <-> scopesUndefined i.
Proof.
  unfold _isDefinedConfig, scopesUndefined.
  rewrite !orb_false_iff, !negb_false_iff, !isUndefined_true. tauto.
Qed.

Lemma applyUpdates_app (us vs : list Update) (w : World) :
  applyUpdates (us ++ vs) w = applyUpdates vs (applyUpdates us w).
Proof. unfold applyUpdates. apply fold_left_app. Qed.

Lemma applyUpdates_pending (us : list Update) (w : World) :
  pendingUpdates (applyUpdates us w) = pendingUpdates w.
Proof.
  revert w. induction us as [|u us IH]; intro w; simpl; [reflexivity|].
  unfold applyUpdates in IH. rewrite IH.
  unfold applyUpdate. destruct (updKey u); reflexivity.
Qed.

Lemma applyUpdates_logged (us : list Update) (w : World) :
  logged (applyUpdates us w) = logged w.
Proof.
  revert w. induction us as [|u us IH]; intro w; simpl; [reflexivity|].
  unfold applyUpdates in IH. rewrite IH.
  unfold applyUpdate. destruct (updKey u); reflexivity.
Qed.

Lemma applyUpdates_host (us : list Update) (w : World) :
  host (applyUpdates us w) = host w.
Proof.
  revert w. induction us as [|u us IH]; intro w; simpl; [reflexivity|].
  unfold applyUpdates in IH. rewrite IH.
  unfold applyUpdate. destruct (updKey u); reflexivity.
Qed.

Lemma settle_pending (w : World) : pendingUpdates (settle w) = [].
Proof. unfold settle. now rewrite applyUpdates_pending. Qed.

Lemma settle_addPending (us : list Update) (w : World) :
  settle (addPending us w) = applyUpdates us (settle w).
Proof. unfold settle, addPending. simpl. apply applyUpdates_app. Qed.

(** No update touches the default of a setting. *)
Lemma applyUpdates_default_new (us : list Update) (w : World) (k : Config) :
  defaultValue (newSettings (applyUpdates us w) k)
  = defaultValue (newSettings w k).
Proof.
  revert w. induction us as [|u us IH]; intro w; simpl; [reflexivity|].
  unfold applyUpdates in IH. rewrite IH.
  unfold applyUpdate. destruct (updKey u) as [k0|k0]; simpl; [reflexivity|].
  destruct (Config_eq_dec k0 k); [|reflexivity].
  destruct (updTarget u); reflexivity.
Qed.

Lemma Config_eq_dec_same {A : Type} (k : Config) (a b : A) :
  (if Config_eq_dec k k then a else b) = a.
Proof. destruct (Config_eq_dec k k); congruence. Qed.

Lemma OldConfig_eq_dec_same {A : Type} (k : OldConfig) (a b : A) :
  (if OldConfig_eq_dec k k then a else b) = a.
Proof. destruct (OldConfig_eq_dec k k); congruence. Qed.

(** The state of the two keys once the six writes of a migration are
    applied. *)
Lemma migrationUpdates_new (newName : MigratableConfig) (vals : Inspect)
  (w : World) :
  newSettings (applyUpdates (migrationUpdates newName vals) w)
    (Migratable newName)
  = {| defaultValue := defaultValue (newSettings w (Migratable newName));
       globalValue := globalValue vals;
       workspaceValue := workspaceValue vals;
       workspaceFolderValue := workspaceFolderValue vals |}.
Proof.
  unfold migrationUpdates, applyUpdates, applyUpdate. simpl.
  now rewrite !Config_eq_dec_same.
Qed.

Lemma migrationUpdates_old (newName : MigratableConfig) (vals : Inspect)
  (w : World) :
  oldSettings (applyUpdates (migrationUpdates newName vals) w)
    (MigrationV1V2NamePairs newName)
  = {| defaultValue :=
         defaultValue (oldSettings w (MigrationV1V2NamePairs newName));
       globalValue := VUndefined;
       workspaceValue := VUndefined;
       workspaceFolderValue := VUndefined |}.
Proof.
  unfold migrationUpdates, applyUpdates, applyUpdate. simpl.
  now rewrite !OldConfig_eq_dec_same.
Qed.

(** ** Resolution *)

(** A defined legacy key: the effective legacy value is returned and six
    writes are requested, nothing else changes. *)
Lemma _getNewOrOldAndMigrate_defined (newName : MigratableConfig) (w : World) :
  let vals := oldSettings w (MigrationV1V2NamePairs newName) in
  _isDefinedConfig (Some vals) = true ->
  _getNewOrOldAndMigrate newName w
  = (Return (effective vals), addPending (migrationUpdates newName vals) w).
Proof.
  intros vals Hdef. unfold _getNewOrOldAndMigrate, bind, _old_inspect.
  fold vals. rewrite Hdef.
  unfold _new_update, _old_update, _old_get, request, ret, addPending,
    migrationUpdates. simpl.
  repeat rewrite <- app_assoc. reflexivity.
Qed.

(** An undefined legacy key: the new key is read and the world is left as
    it is. *)
Lemma _getNewOrOldAndMigrate_undefined (newName : MigratableConfig) (w : World) :
  _isDefinedConfig (Some (oldSettings w (MigrationV1V2NamePairs newName)))
  = false ->
  _getNewOrOldAndMigrate newName w
  = (Return (effective (newSettings w (Migratable newName))), w).
Proof.
  intro Hdef. unfold _getNewOrOldAndMigrate, bind, _old_inspect.
  rewrite Hdef. reflexivity.
Qed.

Lemma effective_defined (i : Inspect) (d : JsVal) :
  _isDefinedConfig (Some i) = true ->
  effective {| defaultValue := d;
               globalValue := globalValue i;
               workspaceValue := workspaceValue i;
               workspaceFolderValue := workspaceFolderValue i |}
  = effective i.
Proof.
  unfold _isDefinedConfig, effective. simpl.
  destruct (isUndefined (workspaceFolderValue i)),
    (isUndefined (workspaceValue i)), (isUndefined (globalValue i));
    simpl; intro H; congruence.
Qed.

Lemma effective_defined_not_undefined (i : Inspect) :
  _isDefinedConfig (Some i) = true -> effective i <> VUndefined.
Proof.
  unfold _isDefinedConfig, effective.
  destruct (isUndefined (workspaceFolderValue i)) eqn:E1; simpl.
  - destruct (isUndefined (workspaceValue i)) eqn:E2; simpl.
    + destruct (isUndefined (globalValue i)) eqn:E3; simpl; [discriminate|].
      intros _. now apply isUndefined_false.
    + intros _. now apply isUndefined_false.
  - intros _. now apply isUndefined_false.
Qed.

(** C2: a defined legacy key is migrated scope by scope.  Resolution
    returns the effective legacy value and requests, in this order, the
    write of the legacy global, workspace and workspace-folder values
    (undefined included) to the same scopes of the new key, then the removal
    of the legacy key at the three scopes.  Once the writes are applied the
    new key holds at each scope what the legacy key held there and the
    legacy key is undefined at the three scopes; a value set only at the
    workspace-folder scope is then only at the workspace-folder scope of the
    new key. *)
Theorem migration_is_scope_preserving (newName : MigratableConfig) (w : World) :
  let oldName := MigrationV1V2NamePairs newName in
  let vals := oldSettings w oldName in
  _isDefinedConfig (Some vals) = true ->
  exists w',
    _getNewOrOldAndMigrate newName w = (Return (effective vals), w')
    /\ oldSettings w' = oldSettings w
    /\ newSettings w' = newSettings w
    /\ pendingUpdates w' = (pendingUpdates w ++
         [ {| updKey := NewKey (Migratable newName);
              updValue := globalValue vals; updTarget := Global |};
           {| updKey := NewKey (Migratable newName);
              updValue := workspaceValue vals; updTarget := Workspace |};
           {| updKey := NewKey (Migratable newName);
              updValue := workspaceFolderValue vals;
              updTarget := WorkspaceFolder |};
           {| updKey := OldKey oldName;
              updValue := VUndefined; updTarget := Global |};
           {| updKey := OldKey oldName;
              updValue := VUndefined; updTarget := Workspace |};
           {| updKey := OldKey oldName;
              updValue := VUndefined; updTarget := WorkspaceFolder |} ])%list
    /\ globalValue (newSettings (settle w') (Migratable newName))
       = globalValue vals
    /\ workspaceValue (newSettings (settle w') (Migratable newName))
       = workspaceValue vals
    /\ workspaceFolderValue (newSettings (settle w') (Migratable newName))
       = workspaceFolderValue vals
    /\ scopesUndefined (oldSettings (settle w') oldName)
    /\ (globalValue vals = VUndefined ->
        workspaceValue vals = VUndefined ->
        globalValue (newSettings (settle w') (Migratable newName)) = VUndefined
        /\ workspaceValue (newSettings (settle w') (Migratable newName))
           = VUndefined
        /\ workspaceFolderValue (newSettings (settle w') (Migratable newName))
           = workspaceFolderValue vals
        /\ workspaceFolderValue vals <> VUndefined).
Proof.
  intros oldName vals Hdef.
  exists (addPending (migrationUpdates newName vals) w).
  split; [now apply _getNewOrOldAndMigrate_defined|].
  rewrite settle_addPending, migrationUpdates_new.
  subst oldName. rewrite migrationUpdates_old. simpl.
  repeat (split; [reflexivity|]).
  split; [repeat split|].
  intros Hg Hw. repeat (split; [assumption || reflexivity|]).
  unfold _isDefinedConfig in Hdef. rewrite Hg, Hw in Hdef. simpl in Hdef.
  apply isUndefined_false. now apply negb_true_iff.
Qed.

(** A legacy [logpanel] value set in the workspace-folder settings only. *)
Lemma migration_is_scope_preserving_witness :
  let w := withOld logpanel WorkspaceFolder (VBool true) (freshWorld plainHost) in
  exists w',
    _getNewOrOldAndMigrate log_logpanel w = (Return (VBool true), w')
    /\ newSettings (settle w') (Migratable log_logpanel)
       = {| defaultValue := VUndefined; globalValue := VUndefined;
            workspaceValue := VUndefined;
            workspaceFolderValue := VBool true |}.
Proof.
  intro w.
  destruct (migration_is_scope_preserving log_logpanel w eq_refl)
    as (w' & Hrun & _ & Hnew & _ & Hg & Hw & Hf & _).
  exists w'. split; [exact Hrun|].
  pose proof (applyUpdates_default_new (pendingUpdates w') (clearPending w')
                (Migratable log_logpanel)) as Hd.
  fold (settle w') in Hd. simpl in Hd. rewrite Hnew in Hd.
  destruct (newSettings (settle w') (Migratable log_logpanel)); simpl in *.
  now subst.
Defined.
Example StringToNumber_42 : StringToNumber "42" = integer 42.
Proof. reflexivity. Qed.

Example StringToNumber_abc : StringToNumber "abc" = NaN.
Proof. reflexivity. Qed.

Example StringToNumber_hex : StringToNumber " 0x1F " = integer 31.
Proof. reflexivity. Qed.

Example StringToNumber_frac : StringToNumber "-2.50e1" = Finite (-25 # 1).
Proof. reflexivity. Qed.

Example StringToNumber_half : StringToNumber ".5" = Finite (1 # 2).
Proof. reflexivity. Qed.

Example StringToNumber_dot : StringToNumber "." = NaN.
Proof. reflexivity. Qed.

Example StringToNumber_inf : StringToNumber "-Infinity" = Infinity true.
Proof. reflexivity. Qed.

Example StringToNumber_junk : StringToNumber "12px" = NaN.
Proof. reflexivity. Qed.

(** ** Numeric strings *)

Lemma digit_is_read (c : ascii) :
  isDecimalDigit c = true ->
  digitValue 10 c = Some (digitOf c) /\ isStrWhiteSpaceChar c = false.
Proof.
  destruct c as [[] [] [] [] [] [] [] []]; intro H;
    try (vm_compute in H; discriminate H); split; reflexivity.
Qed.

Lemma takeDigits_digits (ds : list ascii) :
  forallb isDecimalDigit ds = true ->
  forall acc n,
    takeDigits acc n ds = (decimalValue acc ds, (n + List.length ds)%nat, []).
Proof.
  induction ds as [|c ds IH]; simpl; intros H acc n.
  - now rewrite Nat.add_0_r.
  - apply andb_true_iff in H. destruct H as [Hc Hds].
    destruct (digit_is_read c Hc) as [-> _].
    rewrite (IH Hds). now rewrite Nat.add_succ_r.
Qed.

Lemma skipWhiteSpace_digits (ds : list ascii) :
  forallb isDecimalDigit ds = true -> skipWhiteSpace ds = ds.
Proof.
  destruct ds as [|c ds]; simpl; [reflexivity|]. intro H.
  apply andb_true_iff in H. destruct H as [Hc _].
  now destruct (digit_is_read c Hc) as [_ ->].
Qed.

Lemma forallb_rev {A : Type} (f : A -> bool) (l : list A) :
  forallb f (rev l) = forallb f l.
Proof.
  induction l as [|a l IH]; simpl; [reflexivity|].
  rewrite forallb_app, IH. simpl. rewrite andb_true_r. apply andb_comm.
Qed.

Lemma trimWhiteSpace_digits (ds : list ascii) :
  forallb isDecimalDigit ds = true -> trimWhiteSpace ds = ds.
Proof.
  intro H. unfold trimWhiteSpace.
  rewrite (skipWhiteSpace_digits ds H).
  rewrite skipWhiteSpace_digits by now rewrite forallb_rev.
  apply rev_involutive.
Qed.

Lemma nonDecimalIntegerLiteral_digits (ds : list ascii) :
  forallb isDecimalDigit ds = true -> nonDecimalIntegerLiteral ds = None.
Proof.
  destruct ds as [|c [|p ds]]; [reflexivity| |].
  - intros _. destruct c as [[] [] [] [] [] [] [] []]; reflexivity.
  - intro H. simpl in H. apply andb_true_iff in H. destruct H as [_ H].
    apply andb_true_iff in H. destruct H as [Hp _].
    destruct c as [[] [] [] [] [] [] [] []]; try reflexivity.
    destruct p as [[] [] [] [] [] [] [] []];
      try (vm_compute in Hp; discriminate Hp); reflexivity.
Qed.

Lemma strUnsignedDecimalLiteral_digits (ds : list ascii) :
  ds <> [] ->
  forallb isDecimalDigit ds = true ->
  strUnsignedDecimalLiteral ds = integer (decimalValue 0 ds).
Proof.
  intros Hne H. unfold strUnsignedDecimalLiteral.
  assert (Hinf : String.eqb (string_of_list_ascii ds) "Infinity" = false).
  { destruct ds as [|c ds]; [congruence|].
    simpl in H. apply andb_true_iff in H. destruct H as [Hc _].
    destruct c as [[] [] [] [] [] [] [] []];
      try (vm_compute in Hc; discriminate Hc); reflexivity. }
  rewrite Hinf, (takeDigits_digits ds H).
  destruct ds as [|c ds]; [congruence|].
  simpl. unfold scale10, integer. simpl. now rewrite Z.mul_1_r.
Qed.

(** A non-empty string of decimal digits converts to the number it
    denotes. *)
Lemma StringToNumber_digits (ds : list ascii) :
  ds <> [] ->
  forallb isDecimalDigit ds = true ->
  StringToNumber (string_of_list_ascii ds) = integer (decimalValue 0 ds).
Proof.
  intros Hne H. unfold StringToNumber.
  rewrite list_ascii_of_string_of_list_ascii, (trimWhiteSpace_digits ds H).
  rewrite <- (strUnsignedDecimalLiteral_digits ds Hne H).
  pose proof (nonDecimalIntegerLiteral_digits ds H) as Hnd.
  destruct ds as [|c ds]; [congruence|].
  rewrite Hnd.
  simpl in H. apply andb_true_iff in H. destruct H as [Hc _].
  destruct c as [[] [] [] [] [] [] [] []];
    try (vm_compute in Hc; discriminate Hc); reflexivity.
Qed.

Example StringToNumber_digits_2026 :
  StringToNumber "2026" = integer 2026.
Proof.
  exact (StringToNumber_digits (list_ascii_of_string "2026")
           ltac:(discriminate) eq_refl).
Qed.

(** C3, as stated, fails: the writes of a migration are only requested by
    the call.  Right after a first call on a legacy [logpanel] set in the
    user settings the legacy key is still defined, and a second call made
    then requests six more writes. *)
Lemma second_call_before_writes_are_applied :
  let w := withOld logpanel Global (VBool true) (freshWorld plainHost) in
  let w1 := snd (_getNewOrOldAndMigrate log_logpanel w) in
  let w2 := snd (_getNewOrOldAndMigrate log_logpanel w1) in
  ~ scopesUndefined (oldSettings w1 logpanel)
  /\ List.length (pendingUpdates w1) = 6%nat
  /\ List.length (pendingUpdates w2) = 12%nat.
Proof.
  split; [|split; reflexivity].
  intros (Hg & _). vm_compute in Hg. discriminate.
Qed.

(** C3, amended: for a defined legacy key, once the writes requested by a
    first call are applied the legacy key is undefined at the three scopes,
    and a second call returns the same value, reads only the new key and
    leaves the world as it is (no write is requested); a second call made
    before the writes are applied returns the same value as well. *)
Theorem migration_is_idempotent_once_applied (newName : MigratableConfig)
  (w : World) :
  let oldName := MigrationV1V2NamePairs newName in
  _isDefinedConfig (Some (oldSettings w oldName)) = true ->
  exists (r : JsVal) (w1 : World),
    _getNewOrOldAndMigrate newName w = (Return r, w1)
    /\ scopesUndefined (oldSettings (settle w1) oldName)
    /\ _getNewOrOldAndMigrate newName (settle w1) = (Return r, settle w1)
    /\ r = effective (newSettings (settle w1) (Migratable newName))
    /\ fst (_getNewOrOldAndMigrate newName w1) = Return r.
Proof.
  intros oldName Hdef.
  set (vals := oldSettings w oldName) in *.
  exists (effective vals), (addPending (migrationUpdates newName vals) w).
  split; [now apply _getNewOrOldAndMigrate_defined|].
  assert (Hold : scopesUndefined
            (oldSettings
               (settle (addPending (migrationUpdates newName vals) w)) oldName)).
  { rewrite settle_addPending. subst oldName.
    rewrite migrationUpdates_old. repeat split. }
  assert (Hnew : effective
            (newSettings
               (settle (addPending (migrationUpdates newName vals) w))
               (Migratable newName)) = effective vals).
  { rewrite settle_addPending, migrationUpdates_new.
    now apply effective_defined. }
  split; [exact Hold|]. split; [|split].
  - rewrite _getNewOrOldAndMigrate_undefined.
    + now rewrite Hnew.
    + now apply _isDefinedConfig_false.
  - now rewrite Hnew.
  - rewrite _getNewOrOldAndMigrate_defined; [reflexivity|exact Hdef].
Qed.

Lemma migration_is_idempotent_once_applied_witness :
  let w := withOld logpanel Global (VBool true) (freshWorld plainHost) in
  exists w1,
    _getNewOrOldAndMigrate log_logpanel w = (Return (VBool true), w1)
    /\ _getNewOrOldAndMigrate log_logpanel (settle w1)
       = (Return (VBool true), settle w1).
Proof.
  intro w.
  destruct (migration_is_idempotent_once_applied log_logpanel w eq_refl)
    as (r & w1 & Hrun & _ & Hagain & _).
  assert (Hr : r = VBool true).
  { assert (H : fst (_getNewOrOldAndMigrate log_logpanel w) = Return r)
      by now rewrite Hrun.
    vm_compute in H. congruence. }
  subst r. now exists w1.
Defined.

(** ** Derived accessors *)

Lemma _getNewOrOldOrDefAndMigrate_run (newName : MigratableConfig)
  (d v : JsVal) (w w' : World) :
  _getNewOrOldAndMigrate newName w = (Return v, w') ->
  _getNewOrOldOrDefAndMigrate newName d w
  = (Return (if isUndefined v then d else v), w').
Proof.
  intro H. unfold _getNewOrOldOrDefAndMigrate, bind. rewrite H.
  now destruct (isUndefined v).
Qed.


Lemma getRandomGeneratorSeed_run (v : JsVal) (w w' : World) :
  _getNewOrOldAndMigrate test_randomGeneratorSeed w = (Return v, w') ->
  getRandomGeneratorSeed w
  = (Return
       (let val := if isUndefined v then VString "time" else v in
        if isString val "time" then val
        else if isString val "" then VNull
        else if Number_isNaN (ToNumber val) then VNull
        else VNumber (ToNumber val)),
     w').
Proof.
  intro H. unfold getRandomGeneratorSeed, bind.
  rewrite (_getNewOrOldOrDefAndMigrate_run _ _ _ _ _ H).
  cbv zeta.
  destruct (isString _ "time"); [reflexivity|].
  destruct (isString _ ""); [reflexivity|].
  now destruct (Number_isNaN _).
Qed.

Lemma isString_neq (s t : string) : s <> t -> isString (VString s) t = false.
Proof. intro H. simpl. now apply String.eqb_neq. Qed.

(** C8: the random seed setting.  With [v] the resolved setting:
    ['time'] gives ['time']; the empty string gives [null]; ['42'] gives
    the number 42; ['abc'] gives [null]; an unset setting takes the default
    ['time']; and any other string gives the number it denotes, or [null]
    when it denotes none. *)
Theorem getRandomGeneratorSeed_cases (v : JsVal) (w w' : World) :
  _getNewOrOldAndMigrate test_randomGeneratorSeed w = (Return v, w') ->
  (v = VString "time" ->
   getRandomGeneratorSeed w = (Return (VString "time"), w'))
  /\ (v = VString "" -> getRandomGeneratorSeed w = (Return VNull, w'))
  /\ (v = VString "42" ->
      getRandomGeneratorSeed w = (Return (VNumber (integer 42)), w'))
  /\ (v = VString "abc" -> getRandomGeneratorSeed w = (Return VNull, w'))
  /\ (v = VUndefined ->
      getRandomGeneratorSeed w = (Return (VString "time"), w'))
  /\ (forall s, v = VString s -> isAsciiString s = true ->
      s <> "time" -> s <> "" -> StringToNumber s = NaN ->
      getRandomGeneratorSeed w = (Return VNull, w'))
  /\ (forall s, v = VString s -> isAsciiString s = true ->
      s <> "" -> StringToNumber s <> NaN ->
      exists n,
        getRandomGeneratorSeed w = (Return (VNumber n), w') /\ n <> NaN)
  /\ (forall ds, ds <> [] -> forallb isDecimalDigit ds = true ->
      (decimalValue 0 ds < 2 ^ 53)%Z ->
      v = VString (string_of_list_ascii ds) ->
      getRandomGeneratorSeed w
      = (Return (VNumber (integer (decimalValue 0 ds))), w')).
Proof.
  intro H. pose proof (getRandomGeneratorSeed_run v w w' H) as R.
  assert (G : forall s, v = VString s -> s <> "time" -> s <> "" ->
              getRandomGeneratorSeed w
              = (Return (match StringToNumber s with
                         | NaN => VNull
                         | n => VNumber n
                         end), w')).
  { intros s -> Ht He. rewrite R. simpl isUndefined. cbv zeta iota.
    rewrite (isString_neq _ _ Ht), (isString_neq _ _ He). simpl ToNumber.
    now destruct (StringToNumber s). }
  repeat split; try (intros ->; exact R).
  { intros s Hv _ Ht He Hn. rewrite (G s Hv Ht He). now rewrite Hn. }
  { intros s Hv _ He Hn.
    assert (Ht : s <> "time") by (intros ->; now apply Hn).
    rewrite (G s Hv Ht He).
    destruct (StringToNumber s) eqn:E; [congruence| |];
      eexists; split; try reflexivity; discriminate. }
  intros ds Hne Hd _ Hv. rewrite (G _ Hv).
  - now rewrite (StringToNumber_digits ds Hne Hd).
  - destruct ds as [|c ds]; [congruence|].
    simpl in Hd. apply andb_true_iff in Hd. destruct Hd as [Hc _].
    destruct c as [[] [] [] [] [] [] [] []];
      try (vm_compute in Hc; discriminate Hc); discriminate.
  - destruct ds as [|c ds]; [congruence|discriminate].
Qed.

Lemma getRandomGeneratorSeed_cases_witness :
  getRandomGeneratorSeed
    (withNew (Migratable test_randomGeneratorSeed) Workspace (VString "42")
       (freshWorld plainHost))
  = (Return (VNumber (integer 42)),
     withNew (Migratable test_randomGeneratorSeed) Workspace (VString "42")
       (freshWorld plainHost)).
Proof.
  refine (proj1 (proj2 (proj2
            (getRandomGeneratorSeed_cases (VString "42") _ _ _))) eq_refl).
  reflexivity.
Defined.

Lemma getParallelExecutionLimit_run (v : JsVal) (w w' : World) :
  _getNewOrOldAndMigrate test_parallelExecutionLimit w = (Return v, w') ->
  fst (getParallelExecutionLimit w)
  = Return (Math_max (integer 1)
              (ToNumber (if isUndefined v then VNumber (integer 1) else v))).
Proof.
  intro H. unfold getParallelExecutionLimit, bind.
  rewrite (_getNewOrOldOrDefAndMigrate_run _ _ _ _ _ H).
  cbv zeta. simpl typeof. simpl negb.
  cbv iota.
  destruct (number_gt _ _); reflexivity.
Qed.

(** The clamp on numbers: a raw 0 gives 1 and a raw 4 gives 4. *)
Lemma getParallelExecutionLimit_clamps (w w' : World) :
  (_getNewOrOldAndMigrate test_parallelExecutionLimit w
   = (Return (VNumber (integer 0)), w') ->
   fst (getParallelExecutionLimit w) = Return (integer 1))
  /\ (_getNewOrOldAndMigrate test_parallelExecutionLimit w
      = (Return (VNumber (integer 4)), w') ->
      fst (getParallelExecutionLimit w) = Return (integer 4)).
Proof.
  split; intro H; now rewrite (getParallelExecutionLimit_run _ _ _ H).
Qed.

Lemma Math_max_at_least_one (n : number) :
  n <> NaN -> atLeastOne (Math_max (integer 1) n) = true.
Proof.
  destruct n as [|[]|q]; [congruence|reflexivity|reflexivity|].
  intros _. unfold Math_max, integer, number_lt.
  destruct (Qcompare (inject_Z 1) q) eqn:E; try reflexivity.
  unfold atLeastOne, number_lt, integer.
  rewrite <- Qcompare_antisym, E. reflexivity.
Qed.

(** A numeric setting gives a limit of at least 1. *)
Lemma getParallelExecutionLimit_numeric (n : number) (w w' : World) :
  n <> NaN ->
  _getNewOrOldAndMigrate test_parallelExecutionLimit w
  = (Return (VNumber n), w') ->
  exists r,
    fst (getParallelExecutionLimit w) = Return r /\ atLeastOne r = true.
Proof.
  intros Hn H. rewrite (getParallelExecutionLimit_run _ _ _ H).
  eexists. split; [reflexivity|]. now apply Math_max_at_least_one.
Qed.

(** The test on the type of the result never succeeds: the result of
    [Math.max] is a number whatever the setting holds. *)
Lemma getParallelExecutionLimit_typeof (n : number) :
  negb (String.eqb (typeof (VNumber n)) "number") = false.
Proof. reflexivity. Qed.

(** C7, at a setting that is not numeric: with ['abc'] in the user
    settings the limit is [NaN], not 1; the same happens for an object and
    for an array of two numbers. *)
Theorem getParallelExecutionLimit_not_numeric :
  fst (getParallelExecutionLimit
         (withNew (Migratable test_parallelExecutionLimit) Global
            (VString "abc") (freshWorld plainHost)))
  = Return NaN
  /\ fst (getParallelExecutionLimit
            (withNew (Migratable test_parallelExecutionLimit) Global
               (VObject []) (freshWorld plainHost)))
     = Return NaN
  /\ fst (getParallelExecutionLimit
            (withNew (Migratable test_parallelExecutionLimit) Global
               (VArray [VNumber (integer 2); VNumber (integer 3)])
               (freshWorld plainHost)))
     = Return NaN.
Proof. repeat split; reflexivity. Qed.

(** ** Executable settings *)

Lemma bind_run {A B : Type} (m : M A) (f : A -> M B) (a : A) (w w1 : World) :
  m w = (Return a, w1) -> bind m f w = f a w1.
Proof. intro H. unfold bind. now rewrite H. Qed.

Lemma bind_throw {A B : Type} (m : M A) (f : A -> M B) (e : Exception)
  (w w1 : World) :
  m w = (Throw e, w1) -> bind m f w = (Throw e, w1).
Proof. intro H. unfold bind. now rewrite H. Qed.

Lemma bind_returns {A B : Type} (m : M A) (f : A -> M B) (b : B)
  (w w' : World) :
  bind m f w = (Return b, w') ->
  exists a w1, m w = (Return a, w1) /\ f a w1 = (Return b, w').
Proof.
  unfold bind. destruct (m w) as [[a|e] w1]; intro H.
  - now exists a, w1.
  - discriminate.
Qed.

Lemma framework_not_null (tg x : JsVal) (w : World) :
  x <> VNull -> exists r, framework tg x w = (Return r, w).
Proof.
  intro H. destruct x; try congruence; eexists; reflexivity.
Qed.

Lemma framework_null (tg : JsVal) (w : World) :
  framework tg VNull w = (Throw TypeError, w).
Proof. reflexivity. Qed.

Lemma framework_world (tg x : JsVal) (w w' : World)
  (r : ExecutableConfigFrameworkSpecific) :
  framework tg x w = (Return r, w') -> w' = w.
Proof.
  destruct x; unfold framework; simpl; intro H; inversion H; reflexivity.
Qed.

Lemma isNull_false (v : JsVal) : isNull v = false <-> v <> VNull.
Proof. destruct v; simpl; split; intro H; congruence. Qed.

Lemma isStringValue_true (v : JsVal) :
  isStringValue v = true <-> v = VString (stringOf v).
Proof.
  destruct v; unfold isStringValue; simpl; split; intro H;
    congruence || reflexivity.
Qed.

Lemma isStringValue_typeof (v : JsVal) :
  isStringValue v = false <-> typeof v <> "string".
Proof. unfold isStringValue. apply String.eqb_neq. Qed.

Ltac run_getProp :=
  repeat match goal with
    | H : getProp (VObject _) _ _ = (Return _, _) |- _ =>
        unfold getProp, lift, readProp in H; inversion H; subst; clear H
    end.

Ltac run_framework :=
  repeat match goal with
    | H : framework _ _ _ = (Return _, _) |- _ =>
        let E := fresh "E" in
        pose proof (framework_world _ _ _ _ _ H) as E; subst; clear H
    end.

Section ExecutablesFacts.

Context {SharedVariables ResolveRulePair : Type}.
Variable shared : SharedVariables.
Variable variableToValue : list ResolveRulePair.


(** What a configuration built from an object holds. *)
Lemma createExecutableConfigFromObj_fields (cwd obj : JsVal) (w w' : World)
  (c : ExecutableConfig SharedVariables ResolveRulePair) :
  createExecutableConfigFromObj shared variableToValue cwd obj w
  = (Return c, w') ->
  exists ps,
    obj = VObject ps
    /\ w' = w
    /\ lookupProp "pattern" ps = VString (_pattern c)
    /\ _name c = (let v := lookupProp "name" ps in
                  if isStringValue v then v else VUndefined)
    /\ _description c = (let v := lookupProp "description" ps in
                         if isStringValue v then v else VUndefined)
    /\ _cwd c = (let v := lookupProp "cwd" ps in
                 if isStringValue v then v else VUndefined)
    /\ _env c = (let v := lookupProp "env" ps in
                 if String.eqb (typeof v) "object" then v else VUndefined)
    /\ _parallelizationLimit c
       = match lookupProp "parallelizationLimit" ps with
         | VNumber n => n
         | _ => integer 1
         end
    /\ _defaultCwd c = cwd.
Proof.
  intro H. destruct obj; try (vm_compute in H; discriminate).
  exists props. split; [reflexivity|].
  unfold createExecutableConfigFromObj in H.
  repeat (apply bind_returns in H; destruct H as (? & ? & ? & H)).
  run_getProp.
  destruct (isStringValue (lookupProp "pattern" props)) eqn:Epat;
    [|vm_compute in H3; discriminate].
  inversion H3; subst; clear H3.
  run_framework.
  inversion H; subst; clear H. simpl.
  split; [reflexivity|].
  split; [now apply isStringValue_true|].
  repeat split.
Qed.

(** An accepted object gives a configuration and leaves the world as it
    is. *)
Lemma createExecutableConfigFromObj_accepts (cwd : JsVal)
  (ps : list (string * JsVal)) (w : World) :
  acceptedElement (VObject ps) = true ->
  exists c,
    createExecutableConfigFromObj shared variableToValue cwd (VObject ps) w
    = (Return c, w).
Proof.
  simpl. rewrite !andb_true_iff, !negb_true_iff, !isNull_false.
  intros [[[Hp Hc] Hg] Hd].
  unfold createExecutableConfigFromObj.
  repeat (erewrite bind_run; [|reflexivity]).
  rewrite Hp.
  erewrite bind_run; [|reflexivity].
  repeat (erewrite bind_run; [|reflexivity]).
  destruct (framework_not_null
              (if truthy (lookupProp "testGrouping" ps)
               then lookupProp "testGrouping" ps else VUndefined)
              _ w Hc) as [r1 E1].
  erewrite bind_run; [|exact E1].
  erewrite bind_run; [|reflexivity].
  destruct (framework_not_null
              (if truthy (lookupProp "testGrouping" ps)
               then lookupProp "testGrouping" ps else VUndefined)
              _ w Hg) as [r2 E2].
  erewrite bind_run; [|exact E2].
  erewrite bind_run; [|reflexivity].
  destruct (framework_not_null
              (if truthy (lookupProp "testGrouping" ps)
               then lookupProp "testGrouping" ps else VUndefined)
              _ w Hd) as [r3 E3].
  erewrite bind_run; [|exact E3].
  eexists. reflexivity.
Qed.

(** An object without a string [pattern] is refused with the shape
    error. *)
Lemma createExecutableConfigFromObj_pattern_required (cwd : JsVal)
  (ps : list (string * JsVal)) (w : World) :
  typeof (lookupProp "pattern" ps) <> "string" ->
  fst (createExecutableConfigFromObj shared variableToValue cwd (VObject ps) w)
  = Throw (Error "pattern property is required.").
Proof.
  intro H. apply isStringValue_typeof in H.
  unfold createExecutableConfigFromObj.
  repeat (erewrite bind_run; [|reflexivity]).
  rewrite H. reflexivity.
Qed.

Lemma createExecutableConfigs_string (cwd : JsVal) (s : string)
  (rest : list JsVal) (acc : list (ExecutableConfig SharedVariables ResolveRulePair))
  (w : World) :
  createExecutableConfigs shared variableToValue cwd (VString s :: rest) acc w
  = createExecutableConfigs shared variableToValue cwd rest
      (acc ++ [createExecutableConfigFromPattern shared variableToValue cwd s])
      w.
Proof. reflexivity. Qed.

Lemma createExecutableConfigs_object (cwd : JsVal)
  (ps : list (string * JsVal)) (rest : list JsVal)
  (acc : list (ExecutableConfig SharedVariables ResolveRulePair)) (w : World) :
  createExecutableConfigs shared variableToValue cwd (VObject ps :: rest) acc w
  = bind (createExecutableConfigFromObj shared variableToValue cwd (VObject ps))
      (fun c =>
         createExecutableConfigs shared variableToValue cwd rest (acc ++ [c]))
      w.
Proof. reflexivity. Qed.

(** The loop over the elements: when it returns, it has added one
    configuration per element, in order. *)
Lemma createExecutableConfigs_returns (cwd : JsVal) (confs : list JsVal) :
  forall acc w cs w',
    createExecutableConfigs shared variableToValue cwd confs acc w
    = (Return cs, w') ->
    exists cs',
      cs = (acc ++ cs')%list
      /\ Forall2
           (fun conf c =>
              if isStringValue conf
              then c = createExecutableConfigFromPattern shared variableToValue
                         cwd (stringOf conf)
              else exists wa wb,
                  createExecutableConfigFromObj shared variableToValue cwd
                    conf wa = (Return c, wb))
           confs cs'.
Proof.
  induction confs as [|conf rest IH]; intros acc w cs w' H; simpl in H.
  - inversion H; subst. exists []. split; [now rewrite app_nil_r|constructor].
  - fold (isStringValue conf) in H.
    destruct (isStringValue conf) eqn:E.
    + apply IH in H. destruct H as (cs' & -> & HF).
      eexists (_ :: cs'). split; [now rewrite <- app_assoc|].
      constructor; [now rewrite E|exact HF].
    + apply bind_returns in H. destruct H as (c & w1 & Hc & H).
      apply IH in H. destruct H as (cs' & -> & HF).
      exists (c :: cs'). split; [now rewrite <- app_assoc|].
      constructor; [rewrite E; now exists w, w1|exact HF].
Qed.

(** The loop over accepted elements returns. *)
Lemma createExecutableConfigs_accepts (cwd : JsVal) (confs : list JsVal) :
  forallb acceptedElement confs = true ->
  forall acc w,
    exists cs,
      createExecutableConfigs shared variableToValue cwd confs acc w
      = (Return cs, w).
Proof.
  induction confs as [|conf rest IH]; intros H acc w.
  - now exists acc.
  - simpl in H. apply andb_true_iff in H. destruct H as [Hc Hr].
    destruct conf; try discriminate.
    + rewrite createExecutableConfigs_string. apply (IH Hr).
    + rewrite createExecutableConfigs_object.
      destruct (createExecutableConfigFromObj_accepts cwd props w Hc)
        as [c Ec].
      erewrite bind_run; [|exact Ec]. apply (IH Hr).
Qed.

(** The loop stops with the shape error at the first object without a
    string [pattern], when the elements before it are accepted. *)
Lemma createExecutableConfigs_pattern_required (cwd : JsVal)
  (pre rest : list JsVal) (ps : list (string * JsVal)) :
  forallb acceptedElement pre = true ->
  typeof (lookupProp "pattern" ps) <> "string" ->
  forall acc w,
    fst (createExecutableConfigs shared variableToValue cwd
           (pre ++ VObject ps :: rest) acc w)
    = Throw (Error "pattern property is required.").
Proof.
  intros Hpre Hpat.
  induction pre as [|conf pre IH]; intros acc w.
  - rewrite app_nil_l, createExecutableConfigs_object.
    pose proof (createExecutableConfigFromObj_pattern_required cwd ps w Hpat)
      as E.
    unfold bind.
    destruct (createExecutableConfigFromObj _ _ _ _ w) as [[c|e] w1];
      simpl in E; [discriminate|].
    inversion E. reflexivity.
  - simpl in Hpre. apply andb_true_iff in Hpre. destruct Hpre as [Hc Hr].
    rewrite <- app_comm_cons.
    destruct conf; try discriminate.
    + rewrite createExecutableConfigs_string. apply (IH Hr).
    + rewrite createExecutableConfigs_object.
      destruct (createExecutableConfigFromObj_accepts cwd props w Hc)
        as [c Ec].
      erewrite bind_run; [|exact Ec]. apply (IH Hr).
Qed.

Lemma _getNewOrOldAndMigrate_frame (newName : MigratableConfig) (w : World) :
  exists v w',
    _getNewOrOldAndMigrate newName w = (Return v, w')
    /\ newSettings w' = newSettings w
    /\ oldSettings w' = oldSettings w
    /\ host w' = host w.
Proof.
  destruct (_isDefinedConfig
              (Some (oldSettings w (MigrationV1V2NamePairs newName)))) eqn:E.
  - eexists _, _. split; [now apply _getNewOrOldAndMigrate_defined|].
    repeat split.
  - eexists _, _. split; [now apply _getNewOrOldAndMigrate_undefined|].
    repeat split.
Qed.

Lemma getDefaultCwd_frame (w : World) :
  exists v w',
    getDefaultCwd w = (Return v, w') /\ newSettings w' = newSettings w.
Proof.
  destruct (_getNewOrOldAndMigrate_frame test_workingDirectory w)
    as (v & w' & Hrun & Hnew & _).
  eexists _, w'. split; [|exact Hnew].
  unfold getDefaultCwd. erewrite bind_run; [|reflexivity].
  cbv beta zeta. apply _getNewOrOldOrDefAndMigrate_run. exact Hrun.
Qed.

(** The fallback on [test.executable]. *)
Lemma expandExecutables_fallback (w : World) :
  let configExecs := effective (newSettings w (Migratable test_executables)) in
  let simpleConfig := effective (newSettings w test_executable) in
  configExecs = VUndefined \/ configExecs = VArray [] ->
  exists defaultCwd,
    (simpleConfig = VUndefined ->
     fst (expandExecutables shared variableToValue w)
     = Return [createExecutableConfigFromPattern shared variableToValue
                 defaultCwd defaultPattern])
    /\ (simpleConfig = VString "" ->
        fst (expandExecutables shared variableToValue w) = Return [])
    /\ (forall s, simpleConfig = VString s -> s <> "" ->
        fst (expandExecutables shared variableToValue w)
        = Return [createExecutableConfigFromPattern shared variableToValue
                    defaultCwd s])
    /\ (simpleConfig <> VUndefined -> typeof simpleConfig <> "string" ->
        fst (expandExecutables shared variableToValue w)
        = Throw (Error "`test.executable` couldn't be recognised. It should be a string. For fine-tuning use `test.executables`.")).
Proof.
  intros configExecs simpleConfig Hc.
  destruct (getDefaultCwd_frame w) as (cwd & w1 & Hcwd & Hnew).
  exists (if truthy cwd then cwd else VString "${absDirpath}").
  assert (E : expandExecutables shared variableToValue w
              = bind (log info
                        "`test.executables` is not defined. trying to use `test.executable`"
                        [])
                  (fun _ =>
                     bind (_new_get test_executable)
                       (fun simpleConfig =>
                          if isUndefined simpleConfig then
                            ret [createExecutableConfigFromPattern shared
                                   variableToValue
                                   (if truthy cwd then cwd
                                    else VString "${absDirpath}")
                                   defaultPattern]
                          else if String.eqb (typeof simpleConfig) "string"
                          then
                            if (String.length (stringOf simpleConfig) =? 0)%nat
                            then ret []
                            else
                              ret [createExecutableConfigFromPattern shared
                                     variableToValue
                                     (if truthy cwd then cwd
                                      else VString "${absDirpath}")
                                     (stringOf simpleConfig)]
                          else
                            bind (log warn
                                    "test.executable should be an string or undefined"
                                    [simpleConfig])
                              (fun _ =>
                                 throw (Error "`test.executable` couldn't be recognised. It should be a string. For fine-tuning use `test.executables`."))))
                  w1).
  { unfold expandExecutables. erewrite bind_run; [|exact Hcwd].
    cbv beta zeta. erewrite bind_run; [|reflexivity]. rewrite Hnew.
    fold configExecs. destruct Hc as [-> | ->]; reflexivity. }
  rewrite E. clear E.
  erewrite bind_run; [|reflexivity]. cbv beta.
  erewrite bind_run; [|reflexivity]. cbv beta.
  cbn [newSettings]. rewrite Hnew. fold simpleConfig.
  repeat split.
  - intros ->. reflexivity.
  - intros ->. reflexivity.
  - intros s -> Hs. simpl.
    destruct s as [|a s]; [congruence|reflexivity].
  - intros Hu Ht. apply isUndefined_false in Hu. rewrite Hu.
    apply String.eqb_neq in Ht. rewrite Ht. reflexivity.
Qed.

(** A non-empty array in [test.executables] is expanded element by
    element. *)
Lemma expandExecutables_array (w : World) (confs : list JsVal) :
  effective (newSettings w (Migratable test_executables)) = VArray confs ->
  confs <> [] ->
  exists defaultCwd w2,
    expandExecutables shared variableToValue w
    = createExecutableConfigs shared variableToValue defaultCwd confs [] w2.
Proof.
  intros Hc Hne.
  destruct (getDefaultCwd_frame w) as (cwd & w1 & Hcwd & Hnew).
  eexists (if truthy cwd then cwd else VString "${absDirpath}"), _.
  unfold expandExecutables. erewrite bind_run; [|exact Hcwd].
  cbv beta zeta. erewrite bind_run; [|reflexivity]. rewrite Hnew, Hc.
  destruct confs as [|conf rest]; [congruence|].
  erewrite bind_run; [|reflexivity]. reflexivity.
Qed.

Lemma getExecutables_migrated (w w1 : World) :
  migrateLegacyExecutables w = (Return tt, w1) ->
  getExecutables shared variableToValue w
  = expandExecutables shared variableToValue w1.
Proof. intro H. unfold getExecutables. now erewrite bind_run by exact H. Qed.

(** Without a legacy [executables] setting the migration does nothing. *)
Lemma migrateLegacyExecutables_undefined (w : World) :
  _isDefinedConfig (Some (oldSettings w executables)) = false ->
  migrateLegacyExecutables w = (Return tt, w).
Proof.
  intro H. unfold migrateLegacyExecutables, bind, _old_inspect.
  now rewrite H.
Qed.

Lemma getExecutables_elements (w w1 : World) (confs : list JsVal) :
  migrateLegacyExecutables w = (Return tt, w1) ->
  effective (newSettings w1 (Migratable test_executables)) = VArray confs ->
  confs <> [] ->
  (forall cs,
      fst (getExecutables shared variableToValue w) = Return cs ->
      exists cwd,
        Forall2
          (fun conf c =>
             if isStringValue conf
             then c = createExecutableConfigFromPattern shared variableToValue
                        cwd (stringOf conf)
             else exists wa wb,
                 createExecutableConfigFromObj shared variableToValue cwd
                   conf wa = (Return c, wb))
          confs cs)
  /\ (forallb acceptedElement confs = true ->
      exists cs, fst (getExecutables shared variableToValue w) = Return cs)
  /\ (forall pre ps rest,
        confs = (pre ++ VObject ps :: rest)%list ->
        forallb acceptedElement pre = true ->
        typeof (lookupProp "pattern" ps) <> "string" ->
        fst (getExecutables shared variableToValue w)
        = Throw (Error "pattern property is required.")).
Proof.
  intros Hm Hc Hne.
  rewrite (getExecutables_migrated _ _ Hm).
  destruct (expandExecutables_array w1 confs Hc Hne) as (cwd & w2 & E).
  rewrite E. split; [|split].
  - intros cs H. exists cwd.
    destruct (createExecutableConfigs shared variableToValue cwd confs [] w2)
      as [o w3] eqn:R.
    simpl in H. subst o.
    apply createExecutableConfigs_returns in R.
    destruct R as (cs' & -> & HF). exact HF.
  - intro Ha.
    destruct (createExecutableConfigs_accepts cwd confs Ha [] w2) as [cs R].
    exists cs. now rewrite R.
  - intros pre ps rest -> Hpre Hpat.
    now apply createExecutableConfigs_pattern_required.
Qed.

(** The fallback, seen from [getExecutables]. *)
Lemma getExecutables_fallback (w w1 : World) :
  migrateLegacyExecutables w = (Return tt, w1) ->
  let configExecs := effective (newSettings w1 (Migratable test_executables)) in
  let simpleConfig := effective (newSettings w1 test_executable) in
  configExecs = VUndefined \/ configExecs = VArray [] ->
  exists defaultCwd,
    (simpleConfig = VUndefined ->
     fst (getExecutables shared variableToValue w)
     = Return [createExecutableConfigFromPattern shared variableToValue
                 defaultCwd defaultPattern])
    /\ (simpleConfig = VString "" ->
        fst (getExecutables shared variableToValue w) = Return [])
    /\ (forall s, simpleConfig = VString s -> s <> "" ->
        fst (getExecutables shared variableToValue w)
        = Return [createExecutableConfigFromPattern shared variableToValue
                    defaultCwd s])
    /\ (simpleConfig <> VUndefined -> typeof simpleConfig <> "string" ->
        fst (getExecutables shared variableToValue w)
        = Throw (Error "`test.executable` couldn't be recognised. It should be a string. For fine-tuning use `test.executables`.")).
Proof.
  intros Hm configExecs simpleConfig Hc.
  rewrite (getExecutables_migrated _ _ Hm).
  now apply expandExecutables_fallback.
Qed.

(** C5: the fallback on [test.executable].  When, after the migration of
    the legacy setting, [test.executables] resolves to [undefined] or to an
    empty array: an undefined [test.executable] gives exactly one
    configuration, whose pattern is
    ['{build,Build,BUILD,out,Out,OUT}/**/*{test,Test,TEST}*']; the empty
    string gives no configuration; another string gives exactly one
    configuration, whose pattern is that string; a value of another type
    makes [getExecutables] throw.  The one configuration has nothing but
    its pattern: no name, description, working directory nor environment,
    no dependency, a limit of 1 and empty framework blocks. *)
Theorem getExecutables_falls_back_on_test_executable (w w1 : World) :
  migrateLegacyExecutables w = (Return tt, w1) ->
  let configExecs := effective (newSettings w1 (Migratable test_executables)) in
  let simpleConfig := effective (newSettings w1 test_executable) in
  configExecs = VUndefined \/ configExecs = VArray [] ->
  exists defaultCwd,
    (simpleConfig = VUndefined ->
     exists c,
       fst (getExecutables shared variableToValue w) = Return [c]
       /\ _pattern c
          = "{build,Build,BUILD,out,Out,OUT}/**/*{test,Test,TEST}*"
       /\ isPatternOnlyConfig shared variableToValue defaultCwd
            "{build,Build,BUILD,out,Out,OUT}/**/*{test,Test,TEST}*" c)
    /\ (simpleConfig = VString "" ->
        fst (getExecutables shared variableToValue w) = Return [])
    /\ (forall s, simpleConfig = VString s -> s <> "" ->
        exists c,
          fst (getExecutables shared variableToValue w) = Return [c]
          /\ _pattern c = s
          /\ isPatternOnlyConfig shared variableToValue defaultCwd s c)
    /\ (simpleConfig <> VUndefined -> typeof simpleConfig <> "string" ->
        fst (getExecutables shared variableToValue w)
        = Throw (Error "`test.executable` couldn't be recognised. It should be a string. For fine-tuning use `test.executables`.")).
Proof.
  intros Hm configExecs simpleConfig Hc.
  destruct (getExecutables_fallback w w1 Hm Hc) as (cwd & Hu & He & Hs & Ht).
  exists cwd. split; [|split; [exact He|split; [|exact Ht]]].
  - intro E. eexists. split; [exact (Hu E)|].
    split; [reflexivity|]. unfold isPatternOnlyConfig. simpl.
    repeat split.
  - intros s E Hne. eexists. split; [exact (Hs s E Hne)|].
    split; [reflexivity|]. unfold isPatternOnlyConfig. simpl.
    repeat split.
Qed.

(** C4, amended: the pattern of every configuration is the string its
    source gives, and only the fallback guarantees that it is not empty.
    On the fallback path every returned configuration has a non-empty
    pattern.  For a non-empty [test.executables], each returned
    configuration has as pattern the string element it comes from or the
    string [pattern] of the object it comes from; an object without a
    string [pattern], after accepted elements, makes [getExecutables] throw
    ['pattern property is required.']; and accepted elements give a
    list. *)
Theorem getExecutables_patterns (w w1 : World) :
  migrateLegacyExecutables w = (Return tt, w1) ->
  let configExecs := effective (newSettings w1 (Migratable test_executables)) in
  (configExecs = VUndefined \/ configExecs = VArray [] ->
   forall cs,
     fst (getExecutables shared variableToValue w) = Return cs ->
     Forall (fun c => _pattern c <> "") cs)
  /\ (forall confs,
        configExecs = VArray confs -> confs <> [] ->
        (forall cs,
            fst (getExecutables shared variableToValue w) = Return cs ->
            Forall2 (fun conf c => elementPattern conf = VString (_pattern c))
              confs cs)
        /\ (forall pre ps rest,
              confs = (pre ++ VObject ps :: rest)%list ->
              forallb acceptedElement pre = true ->
              typeof (lookupProp "pattern" ps) <> "string" ->
              fst (getExecutables shared variableToValue w)
              = Throw (Error "pattern property is required."))
        /\ (forallb acceptedElement confs = true ->
            exists cs,
              fst (getExecutables shared variableToValue w) = Return cs)).
Proof.
  intros Hm configExecs. split.
  - intros Hc cs Hcs.
    destruct (getExecutables_fallback w w1 Hm Hc)
      as (cwd & Hu & He & Hs & Ht).
    destruct (effective (newSettings w1 test_executable)) as [| |b|n|s|l|ps]
      eqn:Es.
    + rewrite Hu in Hcs by reflexivity. inversion Hcs; subst.
      constructor; [discriminate|constructor].
    + rewrite Ht in Hcs; [discriminate..].
    + rewrite Ht in Hcs; [discriminate..].
    + rewrite Ht in Hcs; [discriminate..].
    + destruct (string_dec s "") as [->|Hne].
      * rewrite He in Hcs by reflexivity. inversion Hcs; subst. constructor.
      * rewrite (Hs s eq_refl Hne) in Hcs. inversion Hcs; subst.
        constructor; [exact Hne|constructor].
    + rewrite Ht in Hcs; [discriminate..].
    + rewrite Ht in Hcs; [discriminate..].
  - intros confs Hc Hne.
    destruct (getExecutables_elements w w1 confs Hm Hc Hne)
      as (Hel & Hacc & Hpat).
    split; [|split; assumption].
    intros cs Hcs. destruct (Hel cs Hcs) as [cwd HF].
    clear - HF. induction HF as [|conf c confs cs H HF IH]; constructor;
      [|exact IH].
    destruct (isStringValue conf) eqn:E.
    + subst c. apply isStringValue_true in E. rewrite E at 1. reflexivity.
    + destruct H as (wa & wb & H).
      apply createExecutableConfigFromObj_fields in H.
      destruct H as (ps & -> & _ & Hp & _). exact Hp.
Qed.

(** C6, amended: the parallelization limit of an object is only checked
    to be a number.  Each returned configuration has as limit the number
    its object gives, whatever that number is, and 1 when the object gives
    none or the element is a string; accepted elements give a list. *)
Theorem parallelizationLimit_is_the_number_given (w w1 : World)
  (confs : list JsVal) :
  migrateLegacyExecutables w = (Return tt, w1) ->
  effective (newSettings w1 (Migratable test_executables)) = VArray confs ->
  confs <> [] ->
  (forall cs,
      fst (getExecutables shared variableToValue w) = Return cs ->
      Forall2 (fun conf c => _parallelizationLimit c = elementLimit conf)
        confs cs)
  /\ (forallb acceptedElement confs = true ->
      exists cs, fst (getExecutables shared variableToValue w) = Return cs).
Proof.
  intros Hm Hc Hne.
  destruct (getExecutables_elements w w1 confs Hm Hc Hne) as (Hel & Hacc & _).
  split; [|exact Hacc].
  intros cs Hcs. destruct (Hel cs Hcs) as [cwd HF].
  clear - HF. induction HF as [|conf c confs cs H HF IH]; constructor;
    [|exact IH].
  destruct (isStringValue conf) eqn:E.
  - subst c. apply isStringValue_true in E. rewrite E. reflexivity.
  - destruct H as (wa & wb & H).
    apply createExecutableConfigFromObj_fields in H.
    destruct H as (ps & -> & _ & _ & _ & _ & _ & _ & Hl & _). exact Hl.
Qed.


End ExecutablesFacts.

(** *** The loop over a legacy array *)

Lemma addLogged_nil (w : World) : addLogged [] w = w.
Proof. destruct w. unfold addLogged. simpl. now rewrite app_nil_r. Qed.

Lemma addLogged_app (es fs : list LogEntry) (w : World) :
  addLogged fs (addLogged es w) = addLogged (es ++ fs) w.
Proof. unfold addLogged. simpl. now rewrite app_assoc. Qed.

(** The loop gives the normalized array and reports each element it
    leaves out; it touches nothing but the log. *)
Lemma migrateElements_run (oldVal : JsVal) (target : ConfigurationTarget)
  (vs : list JsVal) :
  forall newVals w,
    migrateElements oldVal target vs newVals w
    = (Return (newVals ++ normalizeLegacyArray vs)%list,
       addLogged
         (map (fun v => {| logMethod := errorS;
                           logMessage := "unhandled config case";
                           logArgs := [v; oldVal; targetValue target] |})
            (skippedLegacyElements vs))
         w).
Proof.
  induction vs as [|v vs IH]; intros newVals w.
  - simpl. now rewrite app_nil_r, addLogged_nil.
  - cbn [migrateElements normalizeLegacyArray flat_map skippedLegacyElements
         filter].
    unfold normalizeLegacyElement.
    destruct (typeof v =? "string") eqn:Es.
    + rewrite IH. now rewrite <- app_assoc.
    + destruct (typeof v =? "object") eqn:Eo.
      * rewrite IH. now rewrite <- app_assoc.
      * simpl negb. simpl andb. cbv iota.
        erewrite bind_run; [|reflexivity]. rewrite IH.
        cbn [map]. f_equal. unfold addLogged. simpl.
        now rewrite <- app_assoc.
Qed.

(** The migration of a legacy array at one scope, by the normalized
    array: an empty one disables discovery through the simple key; one with
    two elements or more goes to the array key in full; a singleton goes to
    the simple key when its element has a [pattern], whatever else the
    element holds, and to the array key otherwise. *)
Lemma migrate_array (vs : list JsVal) (target : ConfigurationTarget)
  (w : World) :
  exists w',
    oldSettings w' = oldSettings w
    /\ newSettings w' = newSettings w
    /\ pendingUpdates w' = pendingUpdates w
    /\ migrate (VArray vs) target w
       = match normalizeLegacyArray vs with
         | [] => migrateUpdate target (VString "") VUndefined w'
         | [x] =>
             match readProp x "pattern" with
             | Return VUndefined =>
                 migrateUpdate target VUndefined (VArray [x]) w'
             | Return pattern => migrateUpdate target pattern VUndefined w'
             | Throw e => (Throw e, w')
             end
         | newVals => migrateUpdate target VUndefined (VArray newVals) w'
         end.
Proof.
  eexists. split; [|split; [|split]]; cycle 3.
  - unfold migrate, isUndefined, isNull. cbv iota.
    change (typeof (VArray vs) =? "string") with false. cbv iota.
    erewrite bind_run; [|apply migrateElements_run].
    rewrite app_nil_l.
    destruct (normalizeLegacyArray vs) as [|x [|y l]]; [reflexivity| |].
    + change ((List.length [x] =? 0)%nat) with false.
      change (((List.length [x] =? 1)%nat
               && (List.length (Object_keys (VArray [x])) =? 1)%nat))
        with true.
      cbv iota. unfold bind, getProp, lift. simpl nth.
      destruct (readProp x "pattern") as [p|e]; [|reflexivity].
      destruct p; reflexivity.
    + change ((List.length (x :: y :: l) =? 0)%nat) with false.
      change ((List.length (x :: y :: l) =? 1)%nat) with false.
      reflexivity.
  - reflexivity.
  - reflexivity.
  - reflexivity.
Qed.

(** *** Concrete settings *)

Lemma getExecutables_falls_back_on_test_executable_witness :
  exists c,
    fst (getExecutables tt (@nil unit) (freshWorld plainHost)) = Return [c]
    /\ _pattern c = "{build,Build,BUILD,out,Out,OUT}/**/*{test,Test,TEST}*".
Proof.
  destruct (getExecutables_falls_back_on_test_executable tt (@nil unit)
              (freshWorld plainHost) (freshWorld plainHost) eq_refl
              (or_introl eq_refl))
    as (cwd & Hu & _).
  destruct (Hu eq_refl) as (c & Hrun & Hp & _).
  exists c. split; [exact Hrun|exact Hp].
Defined.

(** C4, as stated, fails: an object whose [pattern] is the empty string
    gives a configuration with an empty pattern, and so does an empty
    string element. *)
Lemma empty_pattern_is_accepted :
  (exists c,
      fst (getExecutables tt (@nil unit)
             (withNew (Migratable test_executables) Global
                (VArray [VObject [("pattern", VString "")]])
                (freshWorld plainHost)))
      = Return [c]
      /\ _pattern c = "")
  /\ (exists c,
         fst (getExecutables tt (@nil unit)
                (withNew (Migratable test_executables) Global
                   (VArray [VString ""]) (freshWorld plainHost)))
         = Return [c]
         /\ _pattern c = "").
Proof. split; eexists; split; reflexivity. Qed.

Lemma getExecutables_patterns_witness :
  fst (getExecutables tt (@nil unit)
         (withNew (Migratable test_executables) Global
            (VArray [VString "foo/*test*"; VObject [("name", VString "x")]])
            (freshWorld plainHost)))
  = Throw (Error "pattern property is required.").
Proof.
  set (w := withNew (Migratable test_executables) Global
              (VArray [VString "foo/*test*"; VObject [("name", VString "x")]])
              (freshWorld plainHost)).
  destruct (getExecutables_patterns tt (@nil unit) w w eq_refl) as [_ H].
  destruct (H _ eq_refl ltac:(discriminate)) as (_ & Hthrow & _).
  apply (Hthrow [VString "foo/*test*"] [("name", VString "x")] []);
    [reflexivity | reflexivity | discriminate].
Defined.

(** C6, as stated, fails: a limit of 0 goes into the configuration as it
    is, and 0 is below 1. *)
Lemma parallelizationLimit_zero_is_kept :
  exists c,
    fst (getExecutables tt (@nil unit)
           (withNew (Migratable test_executables) Global
              (VArray [VObject [("pattern", VString "a");
                                ("parallelizationLimit", VNumber (integer 0))]])
              (freshWorld plainHost)))
    = Return [c]
    /\ _parallelizationLimit c = integer 0
    /\ atLeastOne (_parallelizationLimit c) = false.
Proof. eexists. repeat split. Qed.

Lemma parallelizationLimit_is_the_number_given_witness :
  exists c1 c2,
    fst (getExecutables tt (@nil unit)
           (withNew (Migratable test_executables) Global
              (VArray [VObject [("pattern", VString "a")];
                       VObject [("pattern", VString "b");
                                ("parallelizationLimit", VNumber (integer 2))]])
              (freshWorld plainHost)))
    = Return [c1; c2]
    /\ _parallelizationLimit c1 = integer 1
    /\ _parallelizationLimit c2 = integer 2.
Proof.
  set (confs := [VObject [("pattern", VString "a")];
                 VObject [("pattern", VString "b");
                          ("parallelizationLimit", VNumber (integer 2))]]).
  set (w := withNew (Migratable test_executables) Global (VArray confs)
              (freshWorld plainHost)).
  destruct (parallelizationLimit_is_the_number_given tt (@nil unit) w w confs
              eq_refl eq_refl ltac:(discriminate)) as [H _].
  specialize (H _ eq_refl).
  eexists _, _. split; [reflexivity|].
  inversion H as [|? ? ? ? H1 H']; subst.
  inversion H' as [|? ? ? ? H2 _]; subst.
  split; [exact H1|exact H2].
Defined.


(** *** Migration of the legacy array *)

(** A legacy singleton array collapses to the simple key as soon as its
    object has a [pattern], whatever else the object holds. *)
Lemma migrate_singleton_object (ps : list (string * JsVal))
  (target : ConfigurationTarget) (w : World) :
  lookupProp "pattern" ps <> VUndefined ->
  migrate (VArray [VObject ps]) target w
  = migrateUpdate target (lookupProp "pattern" ps) VUndefined w.
Proof.
  intro H. apply isUndefined_false in H.
  unfold migrate, bind. simpl. now rewrite H.
Qed.

(** C1, at a legacy singleton whose object holds more than a pattern: with
    [[{pattern: 'a', name: 'n'}]] in the legacy user settings, the simple
    key is set to ['a'] and the array key is removed, so the name is lost
    and the expansion gives the configuration of the bare pattern. *)
Theorem legacy_singleton_with_name_collapses :
  let legacy :=
    VArray [VObject [("pattern", VString "a"); ("name", VString "n")]] in
  let w := withOld executables Global legacy (freshWorld plainHost) in
  let w' := settle (snd (getExecutables tt (@nil unit) w)) in
  globalValue (newSettings w' test_executable) = VString "a"
  /\ globalValue (newSettings w' (Migratable test_executables)) = VUndefined
  /\ scopesUndefined (oldSettings w' executables)
  /\ fst (getExecutables tt (@nil unit) w)
     = Return [createExecutableConfigFromPattern tt [] (VString "/ws") "a"].
Proof. repeat split. Qed.

(** ** Debug configuration template *)












Lemma _getNewOrOldAndMigrate_host (newName : MigratableConfig) (v : JsVal)
  (w w1 : World) :
  _getNewOrOldAndMigrate newName w = (Return v, w1) -> host w1 = host w.
Proof.
  intro H.
  destruct (_getNewOrOldAndMigrate_frame newName w) as (v' & w' & E & _ & _ & Hh).
  rewrite E in H. inversion H; subst. exact Hh.
Qed.






(** A [null] entry among the launch configurations makes the scan throw a
    [TypeError], whatever extension is installed. *)
Lemma null_launch_entry_throws :
  fst (getDebugConfigurationTemplate
         (freshWorld
            {| workspaceFolderFsPath := "/ws";
               launchConfigurations := VArray [VNull];
               installedExtensions := ["ms-vscode.cpptools"];
               platform := "linux" |}))
  = Throw TypeError.
Proof. reflexivity. Qed.

(** * Further properties *)

(** ** Migration keeps to its own keys *)

Lemma MigrationV1V2NamePairs_injective (a b : MigratableConfig) :
  MigrationV1V2NamePairs a = MigrationV1V2NamePairs b -> a = b.
Proof. destruct a, b; simpl; intro H; congruence. Qed.

Lemma applyUpdate_new_other (u : Update) (w : World) (k : Config) :
  updKey u <> NewKey k -> newSettings (applyUpdate u w) k = newSettings w k.
Proof.
  intro H. unfold applyUpdate. destruct (updKey u) as [o|k0]; [reflexivity|].
  simpl. destruct (Config_eq_dec k0 k); [congruence|reflexivity].
Qed.

Lemma applyUpdate_old_other (u : Update) (w : World) (o : OldConfig) :
  updKey u <> OldKey o -> oldSettings (applyUpdate u w) o = oldSettings w o.
Proof.
  intro H. unfold applyUpdate. destruct (updKey u) as [o0|k]; [|reflexivity].
  simpl. destruct (OldConfig_eq_dec o0 o); [congruence|reflexivity].
Qed.

Lemma applyUpdates_new_other (us : list Update) (k : Config) :
  Forall (fun u => updKey u <> NewKey k) us ->
  forall w, newSettings (applyUpdates us w) k = newSettings w k.
Proof.
  induction 1 as [|u us Hu _ IH]; intro w; [reflexivity|].
  change (applyUpdates (u :: us) w) with (applyUpdates us (applyUpdate u w)).
  rewrite IH. now apply applyUpdate_new_other.
Qed.

Lemma applyUpdates_old_other (us : list Update) (o : OldConfig) :
  Forall (fun u => updKey u <> OldKey o) us ->
  forall w, oldSettings (applyUpdates us w) o = oldSettings w o.
Proof.
  induction 1 as [|u us Hu _ IH]; intro w; [reflexivity|].
  change (applyUpdates (u :: us) w) with (applyUpdates us (applyUpdate u w)).
  rewrite IH. now apply applyUpdate_old_other.
Qed.

Lemma migrationUpdates_new_other (newName : MigratableConfig) (vals : Inspect)
  (k : Config) :
  k <> Migratable newName ->
  Forall (fun u => updKey u <> NewKey k) (migrationUpdates newName vals).
Proof.
  intro H. unfold migrationUpdates.
  repeat constructor; simpl; congruence.
Qed.

Lemma migrationUpdates_old_other (newName : MigratableConfig) (vals : Inspect)
  (o : OldConfig) :
  o <> MigrationV1V2NamePairs newName ->
  Forall (fun u => updKey u <> OldKey o) (migrationUpdates newName vals).
Proof.
  intro H. unfold migrationUpdates.
  repeat constructor; simpl; congruence.
Qed.

(** The world a resolution leaves: the one it found, or that one with the
    six writes of the migration requested. *)
Lemma _getNewOrOldAndMigrate_world (newName : MigratableConfig) (w : World) :
  exists v w',
    _getNewOrOldAndMigrate newName w = (Return v, w')
    /\ (w' = w
        \/ w' = addPending
                  (migrationUpdates newName
                     (oldSettings w (MigrationV1V2NamePairs newName))) w).
Proof.
  destruct (_isDefinedConfig
              (Some (oldSettings w (MigrationV1V2NamePairs newName)))) eqn:E.
  - eexists _, _. split; [now apply _getNewOrOldAndMigrate_defined|].
    now right.
  - eexists _, _. split; [now apply _getNewOrOldAndMigrate_undefined|].
    now left.
Qed.

(** X1: resolving one setting, migration included, never touches another
    setting: once the writes are applied, the new key and the legacy key of
    every other migratable setting, and [test.executable], hold what they
    would hold without the call. *)
Theorem migration_leaves_other_settings (newName : MigratableConfig)
  (w : World) :
  exists v w',
    _getNewOrOldAndMigrate newName w = (Return v, w')
    /\ (forall other,
           other <> newName ->
           newSettings (settle w') (Migratable other)
           = newSettings (settle w) (Migratable other)
           /\ oldSettings (settle w') (MigrationV1V2NamePairs other)
              = oldSettings (settle w) (MigrationV1V2NamePairs other))
    /\ newSettings (settle w') test_executable
       = newSettings (settle w) test_executable.
Proof.
  destruct (_getNewOrOldAndMigrate_world newName w) as (v & w' & Hrun & Hw).
  exists v, w'. split; [exact Hrun|].
  destruct Hw as [-> | ->]; [repeat split|].
  rewrite settle_addPending. split.
  - intros other Hne. split.
    + apply applyUpdates_new_other, migrationUpdates_new_other. congruence.
    + apply applyUpdates_old_other, migrationUpdates_old_other.
      intro H. apply MigrationV1V2NamePairs_injective in H. congruence.
  - apply applyUpdates_new_other, migrationUpdates_new_other. discriminate.
Qed.

(** ** The constructor *)

Lemma settle_no_pending_new (w : World) :
  pendingUpdates w = [] -> newSettings (settle w) = newSettings w.
Proof. intro H. unfold settle. now rewrite H. Qed.

Lemma settle_no_pending_old (w : World) :
  pendingUpdates w = [] -> oldSettings (settle w) = oldSettings w.
Proof. intro H. unfold settle. now rewrite H. Qed.

Lemma scopesUndefined_not_defined (i : Inspect) :
  scopesUndefined i <-> _isDefinedConfig (Some i) = false.
Proof. symmetry. apply _isDefinedConfig_false. Qed.

(** The six writes of a migration, applied to a world where the legacy
    key held [vals]. *)
Lemma migrationUpdates_migratedFrom (newName : MigratableConfig)
  (w s : World) :
  _isDefinedConfig
    (Some (oldSettings w (MigrationV1V2NamePairs newName))) = true ->
  migratedFrom w
    (applyUpdates
       (migrationUpdates newName
          (oldSettings w (MigrationV1V2NamePairs newName))) s)
    newName.
Proof.
  intro Hdef. unfold migratedFrom. cbv zeta.
  rewrite migrationUpdates_old, migrationUpdates_new.
  split; [repeat split|]. split; [intros _; repeat split|].
  intro H. congruence.
Qed.

(** A world that agrees with [w] on the two keys of a setting whose legacy
    key is undefined. *)
Lemma untouched_migratedFrom (newName : MigratableConfig) (w s : World) :
  _isDefinedConfig
    (Some (oldSettings w (MigrationV1V2NamePairs newName))) = false ->
  oldSettings s (MigrationV1V2NamePairs newName)
  = oldSettings w (MigrationV1V2NamePairs newName) ->
  newSettings s (Migratable newName) = newSettings w (Migratable newName) ->
  migratedFrom w s newName.
Proof.
  intros Hdef Ho Hn. unfold migratedFrom. cbv zeta. rewrite Ho, Hn.
  split; [now apply scopesUndefined_not_defined|]. split; congruence.
Qed.

Lemma migratedFrom_other (newName other : MigratableConfig) (vals : Inspect)
  (w s : World) :
  other <> newName ->
  migratedFrom w s newName ->
  migratedFrom w (applyUpdates (migrationUpdates other vals) s) newName.
Proof.
  intros Hne H. unfold migratedFrom in *. cbv zeta in *.
  rewrite applyUpdates_new_other
    by (apply migrationUpdates_new_other; congruence).
  rewrite applyUpdates_old_other; [exact H|].
  apply migrationUpdates_old_other. intro E.
  apply MigrationV1V2NamePairs_injective in E. congruence.
Qed.

(** X2: the constructor migrates the two log settings.  Built on a world
    with no write under way, it leaves, once its writes are applied, the
    legacy [logpanel] and [logfile] undefined at the three scopes, each new
    key holding at every scope what its legacy key held when that was
    defined, and left alone when it was not. *)
Theorem constructor_migrates_log_settings (w : World) :
  pendingUpdates w = [] ->
  exists w',
    constructor w = (Return tt, w')
    /\ migratedFrom w (settle w') log_logpanel
    /\ migratedFrom w (settle w') log_logfile.
Proof.
  intro Hp. unfold constructor.
  destruct (_isDefinedConfig (Some (oldSettings w logpanel))) eqn:E1;
    destruct (_isDefinedConfig (Some (oldSettings w logfile))) eqn:E2.
  - eexists. split.
    + erewrite bind_run; [|now apply _getNewOrOldAndMigrate_defined].
      cbv beta.
      erewrite bind_run; [|now apply _getNewOrOldAndMigrate_defined].
      reflexivity.
    + rewrite !settle_addPending. split.
      * apply migratedFrom_other; [discriminate|].
        now apply (migrationUpdates_migratedFrom log_logpanel w).
      * now apply (migrationUpdates_migratedFrom log_logfile w).
  - eexists. split.
    + erewrite bind_run; [|now apply _getNewOrOldAndMigrate_defined].
      cbv beta.
      erewrite bind_run; [|now apply _getNewOrOldAndMigrate_undefined].
      reflexivity.
    + rewrite !settle_addPending. split.
      * now apply (migrationUpdates_migratedFrom log_logpanel w).
      * apply migratedFrom_other; [discriminate|].
        apply untouched_migratedFrom; [exact E2| |].
        -- now rewrite settle_no_pending_old.
        -- now rewrite settle_no_pending_new.
  - eexists. split.
    + erewrite bind_run; [|now apply _getNewOrOldAndMigrate_undefined].
      cbv beta.
      erewrite bind_run; [|now apply _getNewOrOldAndMigrate_defined].
      reflexivity.
    + rewrite !settle_addPending. split.
      * apply migratedFrom_other; [discriminate|].
        apply untouched_migratedFrom; [exact E1| |].
        -- now rewrite settle_no_pending_old.
        -- now rewrite settle_no_pending_new.
      * now apply (migrationUpdates_migratedFrom log_logfile w).
  - exists w. split.
    + erewrite bind_run; [|now apply _getNewOrOldAndMigrate_undefined].
      cbv beta.
      erewrite bind_run; [|now apply _getNewOrOldAndMigrate_undefined].
      reflexivity.
    + split; (apply untouched_migratedFrom;
              [assumption
              |now rewrite settle_no_pending_old
              |now rewrite settle_no_pending_new]).
Qed.

Lemma constructor_migrates_log_settings_witness :
  let w := withOld logfile Workspace (VString "/tmp/log.txt")
             (withOld logpanel Global (VBool true) (freshWorld plainHost)) in
  exists w',
    constructor w = (Return tt, w')
    /\ globalValue (newSettings (settle w') (Migratable log_logpanel))
       = VBool true
    /\ workspaceValue (newSettings (settle w') (Migratable log_logfile))
       = VString "/tmp/log.txt"
    /\ scopesUndefined (oldSettings (settle w') logpanel)
    /\ scopesUndefined (oldSettings (settle w') logfile).
Proof.
  intro w.
  destruct (constructor_migrates_log_settings w eq_refl)
    as (w' & Hrun & (Hp0 & Hp1 & _) & (Hf0 & Hf1 & _)).
  exists w'. split; [exact Hrun|].
  destruct (Hp1 eq_refl) as (Hg & _). destruct (Hf1 eq_refl) as (_ & Hw & _).
  repeat split; try assumption; try apply Hp0; try apply Hf0.
Defined.

(** ** Accessors: what they can return *)









(** ** A value written to the user settings is read back *)

Lemma applyUpdate_ext (u : Update) (x y : World) :
  newSettings x = newSettings y ->
  oldSettings x = oldSettings y ->
  newSettings (applyUpdate u x) = newSettings (applyUpdate u y)
  /\ oldSettings (applyUpdate u x) = oldSettings (applyUpdate u y).
Proof.
  intros Hn Ho. unfold applyUpdate.
  destruct (updKey u); simpl; rewrite ?Hn, ?Ho; split; reflexivity.
Qed.

Lemma applyUpdates_ext (us : list Update) :
  forall x y,
    newSettings x = newSettings y ->
    oldSettings x = oldSettings y ->
    newSettings (applyUpdates us x) = newSettings (applyUpdates us y)
    /\ oldSettings (applyUpdates us x) = oldSettings (applyUpdates us y).
Proof.
  induction us as [|u us IH]; intros x y Hn Ho; [now split|].
  change (applyUpdates (u :: us) x) with (applyUpdates us (applyUpdate u x)).
  change (applyUpdates (u :: us) y) with (applyUpdates us (applyUpdate u y)).
  destruct (applyUpdate_ext u x y Hn Ho) as [Hn' Ho']. now apply IH.
Qed.

(** The settings once the writes are applied, for a world that differs
    from another by further requested writes. *)
Lemma settle_further (a b : World) (us : list Update) :
  newSettings a = newSettings b ->
  oldSettings a = oldSettings b ->
  pendingUpdates a = (pendingUpdates b ++ us)%list ->
  newSettings (settle a) = newSettings (applyUpdates us (settle b))
  /\ oldSettings (settle a) = oldSettings (applyUpdates us (settle b)).
Proof.
  intros Hn Ho Hp. unfold settle. rewrite Hp, applyUpdates_app.
  apply applyUpdates_ext;
    apply (applyUpdates_ext (pendingUpdates b) (clearPending a)
             (clearPending b)); assumption.
Qed.

Lemma effective_global (v : JsVal) (i : Inspect) :
  workspaceValue i = VUndefined ->
  workspaceFolderValue i = VUndefined ->
  v <> VUndefined ->
  effective (setScope Global v i) = v.
Proof.
  intros Hw Hf Hv. unfold effective. simpl. rewrite Hw, Hf. simpl.
  apply isUndefined_false in Hv. now rewrite Hv.
Qed.

(** After a resolution of a setting kept at the user level, followed by a
    write of [val] to the user settings, the setting resolves to [val] once
    the writes are applied, and that resolution requests nothing. *)
Lemma global_write_is_read_back (newName : MigratableConfig) (val v : JsVal)
  (w w0 w' : World) :
  pendingUpdates w = [] ->
  userLevelOnly w newName ->
  _getNewOrOldAndMigrate newName w = (Return v, w0) ->
  newSettings w' = newSettings w0 ->
  oldSettings w' = oldSettings w0 ->
  pendingUpdates w' = (pendingUpdates w0 ++ [globalUpdate newName val])%list ->
  val <> VUndefined ->
  _getNewOrOldAndMigrate newName (settle w') = (Return val, settle w').
Proof.
  intros Hp (How & Hof & Hnw & Hnf) Hrun Hn Ho Hpend Hval.
  destruct (settle_further w' w0 _ Hn Ho Hpend) as [Hns Hos].
  assert (Hkeys :
    scopesUndefined (oldSettings (settle w0) (MigrationV1V2NamePairs newName))
    /\ workspaceValue (newSettings (settle w0) (Migratable newName))
       = VUndefined
    /\ workspaceFolderValue (newSettings (settle w0) (Migratable newName))
       = VUndefined).
  { destruct (_isDefinedConfig
                (Some (oldSettings w (MigrationV1V2NamePairs newName))))
      eqn:E.
    - rewrite (_getNewOrOldAndMigrate_defined newName w E) in Hrun.
      inversion Hrun; subst w0.
      rewrite settle_addPending, migrationUpdates_old, migrationUpdates_new.
      repeat split; assumption.
    - rewrite (_getNewOrOldAndMigrate_undefined newName w E) in Hrun.
      inversion Hrun; subst w0.
      rewrite (settle_no_pending_old w Hp), (settle_no_pending_new w Hp).
      split; [now apply _isDefinedConfig_false|]. now split. }
  destruct Hkeys as (Hold & Hw & Hf).
  rewrite _getNewOrOldAndMigrate_undefined.
  - rewrite Hns. unfold applyUpdates, applyUpdate, globalUpdate.
    cbn [fold_left updKey updValue updTarget newSettings].
    rewrite Config_eq_dec_same. now rewrite effective_global.
  - rewrite Hos. unfold applyUpdates, applyUpdate, globalUpdate. simpl.
    now apply _isDefinedConfig_false.
Qed.

(** ** Sentry consent *)

Lemma askSentryConsent_run (value v : JsVal) (w w0 : World) :
  _getNewOrOldAndMigrate log_logSentry w = (Return v, w0) ->
  askSentryConsent value w
  = (let logSentry := if isUndefined v then VString "question" else v in
     if consentIsAsked logSentry then
       bind (log info "Sentry consent" [value])
         (fun _ =>
            if isString value consentYes then
              _new_update (Migratable log_logSentry) (VString "enable") Global
            else if isString value consentNo then
              _new_update (Migratable log_logSentry) (VString "disable_3")
                Global
            else ret tt)
     else ret tt) w0.
Proof.
  intro H. unfold askSentryConsent. cbv zeta.
  erewrite bind_run; [|apply _getNewOrOldOrDefAndMigrate_run; exact H].
  reflexivity.
Qed.



(** X7: a dismissed consent message changes no setting.  When the message
    is shown and the answer is none of the two options, the call requests no
    write of its own and leaves every setting as the resolution left it;
    only the answer is logged. *)
Theorem sentry_dismissed_changes_nothing (w w0 : World) (v value : JsVal) :
  _getNewOrOldAndMigrate log_logSentry w = (Return v, w0) ->
  consentIsAsked (if isUndefined v then VString "question" else v) = true ->
  isString value consentYes = false ->
  isString value consentNo = false ->
  exists w',
    askSentryConsent value w = (Return tt, w')
    /\ pendingUpdates w' = pendingUpdates w0
    /\ newSettings w' = newSettings w0
    /\ oldSettings w' = oldSettings w0
    /\ logged w'
       = (logged w0 ++ [{| logMethod := info;
                           logMessage := "Sentry consent";
                           logArgs := [value] |}])%list.
Proof.
  intros Hrun Hask Hy Hn.
  rewrite (askSentryConsent_run value v w w0 Hrun). cbv zeta. rewrite Hask.
  erewrite bind_run; [|reflexivity]. rewrite Hy, Hn.
  eexists. split; [reflexivity|]. repeat split.
Qed.

Lemma sentry_dismissed_changes_nothing_witness :
  exists w',
    askSentryConsent VUndefined
      (withNew (Migratable log_logSentry) Global (VString "disable_1")
         (freshWorld plainHost))
    = (Return tt, w')
    /\ pendingUpdates w' = [].
Proof.
  destruct (sentry_dismissed_changes_nothing
              (withNew (Migratable log_logSentry) Global (VString "disable_1")
                 (freshWorld plainHost))
              _ (VString "disable_1") VUndefined eq_refl eq_refl eq_refl
              eq_refl)
    as (w' & Hask & Hp & _).
  now exists w'.
Defined.

(** ** User identifier *)

(** X8: the user identifier is created once.  For an identifier kept at
    the user level that resolves to nothing (unset, or an empty string), and
    a hash that is never empty, the call writes a fresh identifier to the
    user settings and returns it; once the writes are applied every later
    call returns that same identifier, whatever the environment and the
    clock are by then, and requests no write. *)
Theorem user_id_is_created_once (hashString : string -> string)
  (env : string -> option string) (performanceNow pid dateNow : string)
  (w w0 : World) (v : JsVal) :
  (forall s, hashString s <> "") ->
  pendingUpdates w = [] ->
  userLevelOnly w log_userId ->
  _getNewOrOldAndMigrate log_userId w = (Return v, w0) ->
  truthy v = false ->
  exists id w',
    getOrCreateUserId hashString env performanceNow pid dateNow w
    = (Return (VString id), w')
    /\ globalValue (newSettings (settle w') (Migratable log_userId))
       = VString id
    /\ forall env2 performanceNow2 pid2 dateNow2,
        getOrCreateUserId hashString env2 performanceNow2 pid2 dateNow2
          (settle w')
        = (Return (VString id), settle w').
Proof.
  intros Hhash Hp Hu Hrun Hv.
  unfold getOrCreateUserId at 1.
  erewrite bind_run; [|exact Hrun]. rewrite Hv. cbv zeta.
  erewrite bind_run; [|reflexivity].
  eexists _, _. split; [reflexivity|].
  match goal with
  | |- globalValue (newSettings (settle ?x) _) = VString ?i /\ _ =>
      set (w' := x); set (id := i)
  end.
  assert (Hback : _getNewOrOldAndMigrate log_userId (settle w')
                  = (Return (VString id), settle w')).
  { apply (global_write_is_read_back log_userId (VString id) v w w0 w');
      try assumption; try reflexivity. discriminate. }
  split.
  - destruct (settle_further w' w0 [globalUpdate log_userId (VString id)]
                eq_refl eq_refl eq_refl) as [Hn _].
    rewrite Hn. unfold applyUpdates, applyUpdate, globalUpdate.
    cbn [fold_left updKey updValue updTarget newSettings].
    now rewrite Config_eq_dec_same.
  - intros env2 performanceNow2 pid2 dateNow2.
    unfold getOrCreateUserId. erewrite bind_run; [|exact Hback].
    assert (Ht : truthy (VString id) = true).
    { simpl. apply negb_true_iff. apply String.eqb_neq. apply Hhash. }
    now rewrite Ht.
Qed.

Lemma user_id_is_created_once_witness :
  exists id w',
    getOrCreateUserId (String "h") (fun _ => None) "12.5" "4242" "1700000000000"
      (freshWorld plainHost)
    = (Return (VString id), w')
    /\ getOrCreateUserId (String "h") (fun _ => Some "me") "99.1" "7" "1"
         (settle w')
       = (Return (VString id), settle w').
Proof.
  destruct (user_id_is_created_once (String "h") (fun _ => None)
              "12.5" "4242" "1700000000000"
              (freshWorld plainHost) (freshWorld plainHost) VUndefined
              ltac:(discriminate) eq_refl
              (conj eq_refl (conj eq_refl (conj eq_refl eq_refl)))
              eq_refl eq_refl)
    as (id & w' & Hrun & _ & Hagain).
  exists id, w'. split; [exact Hrun|apply Hagain].
Defined.

(** An identifier that is already set is returned as it is, and the call
    adds no write to those of the resolution. *)
Lemma user_id_is_kept (hashString : string -> string)
  (env : string -> option string) (performanceNow pid dateNow : string)
  (w w0 : World) (v : JsVal) :
  _getNewOrOldAndMigrate log_userId w = (Return v, w0) ->
  truthy v = true ->
  getOrCreateUserId hashString env performanceNow pid dateNow w
  = (Return v, w0).
Proof.
  intros Hrun Hv. unfold getOrCreateUserId.
  erewrite bind_run; [|exact Hrun]. now rewrite Hv.
Qed.

(** ** Migration of the legacy [executables] setting *)

Lemma clearPending_applyUpdate (u : Update) (x : World) :
  clearPending (applyUpdate u x) = applyUpdate u (clearPending x).
Proof. unfold applyUpdate. destruct (updKey u); reflexivity. Qed.

Lemma clearPending_applyUpdates (us : list Update) :
  forall x, clearPending (applyUpdates us x) = applyUpdates us (clearPending x).
Proof.
  induction us as [|u us IH]; intro x; [reflexivity|].
  change (applyUpdates (u :: us) x) with (applyUpdates us (applyUpdate u x)).
  change (applyUpdates (u :: us) (clearPending x))
    with (applyUpdates us (applyUpdate u (clearPending x))).
  now rewrite IH, clearPending_applyUpdate.
Qed.

Lemma settle_idempotent (w : World) : settle (settle w) = settle w.
Proof.
  unfold settle at 1. rewrite settle_pending.
  unfold settle. now rewrite clearPending_applyUpdates.
Qed.

Lemma settle_request (u : Update) (w : World) :
  settle (snd (request u w)) = applyUpdate u (settle w).
Proof.
  unfold settle, request. simpl. now rewrite applyUpdates_app.
Qed.

(** The [update] closure, seen once every write is applied: its three
    writes come after those under way. *)
Lemma migrateUpdate_settled (t : ConfigurationTarget) (simpleVal val : JsVal)
  (w : World) :
  exists w',
    migrateUpdate t simpleVal val w = (Return tt, w')
    /\ settle w' = applyUpdates (executablesUpdates t simpleVal val) (settle w).
Proof.
  eexists. split; [reflexivity|].
  set (u1 := {| updKey := NewKey test_executable;
                updValue := simpleVal; updTarget := t |}).
  set (u2 := {| updKey := NewKey (Migratable test_executables);
                updValue := val; updTarget := t |}).
  set (u3 := {| updKey := OldKey executables;
                updValue := VUndefined; updTarget := t |}).
  change (settle
            (snd (request u3
                    (settle (snd (request u2
                                    (settle (snd (request u1 w))))))))
          = applyUpdates [u1; u2; u3] (settle w)).
  rewrite settle_request, settle_idempotent, settle_request,
    settle_idempotent, settle_request.
  reflexivity.
Qed.

Lemma migrate_simple (v : JsVal) (t : ConfigurationTarget) (w : World) :
  isSimpleLegacy v = true ->
  exists w',
    migrate v t w = (Return tt, w')
    /\ settle w' = applyUpdates (simpleLegacyUpdates v t) (settle w).
Proof.
  intro H. unfold migrate, simpleLegacyUpdates, simplePatternOf.
  destruct (isUndefined v) eqn:Eu; [exists w; now split|].
  destruct (isNull v) eqn:En; [apply migrateUpdate_settled|].
  unfold isSimpleLegacy in H. rewrite Eu, En in H. simpl in H. rewrite H.
  apply migrateUpdate_settled.
Qed.

Lemma setScope_scopeValue (t t' : ConfigurationTarget) (v : JsVal)
  (i : Inspect) :
  scopeValue t (setScope t' v i)
  = match t, t' with
    | Global, Global | Workspace, Workspace
    | WorkspaceFolder, WorkspaceFolder => v
    | _, _ => scopeValue t i
    end.
Proof. destruct t, t'; reflexivity. Qed.

Lemma simpleLegacyUpdates_settings (v : JsVal) (t : ConfigurationTarget)
  (s : World) :
  let s' := applyUpdates (simpleLegacyUpdates v t) s in
  newSettings s' test_executable
  = (if isUndefined v then newSettings s test_executable
     else setScope t (simplePatternOf v) (newSettings s test_executable))
  /\ newSettings s' (Migratable test_executables)
     = (if isUndefined v then newSettings s (Migratable test_executables)
        else setScope t VUndefined (newSettings s (Migratable test_executables)))
  /\ oldSettings s' executables
     = (if isUndefined v then oldSettings s executables
        else setScope t VUndefined (oldSettings s executables)).
Proof.
  unfold simpleLegacyUpdates. destruct (isUndefined v); [now repeat split|].
  unfold executablesUpdates, applyUpdates, applyUpdate.
  cbn [fold_left updKey updValue updTarget newSettings oldSettings].
  rewrite !Config_eq_dec_same, OldConfig_eq_dec_same.
  destruct (Config_eq_dec (Migratable test_executables) test_executable);
    [discriminate|].
  destruct (Config_eq_dec test_executable (Migratable test_executables));
    [discriminate|].
  now repeat split.
Qed.

(** X9: the simple forms of the legacy [executables] setting are migrated
    scope by scope.  When no write is under way and the legacy value is, at
    each scope, unset, [null] or a string, the migration returns and, once
    its writes are applied: at each scope where the legacy value was set,
    [test.executable] holds the string ([''] for [null]) and
    [test.executables] is removed there; at the other scopes the two new
    keys are left alone; the legacy key is undefined at the three scopes;
    and a second migration does nothing. *)
Theorem legacy_simple_executables_are_migrated (w : World) :
  let vals := oldSettings w executables in
  pendingUpdates w = [] ->
  isSimpleLegacy (globalValue vals) = true ->
  isSimpleLegacy (workspaceValue vals) = true ->
  isSimpleLegacy (workspaceFolderValue vals) = true ->
  exists w',
    migrateLegacyExecutables w = (Return tt, w')
    /\ scopesUndefined (oldSettings (settle w') executables)
    /\ (forall t,
           if isUndefined (scopeValue t vals)
           then scopeValue t (newSettings (settle w') test_executable)
                = scopeValue t (newSettings w test_executable)
                /\ scopeValue t
                     (newSettings (settle w') (Migratable test_executables))
                   = scopeValue t (newSettings w (Migratable test_executables))
           else scopeValue t (newSettings (settle w') test_executable)
                = simplePatternOf (scopeValue t vals)
                /\ scopeValue t
                     (newSettings (settle w') (Migratable test_executables))
                   = VUndefined)
    /\ migrateLegacyExecutables (settle w') = (Return tt, settle w').
Proof.
  intros vals Hp Hg Hw Hf.
  assert (Hrun : exists w',
             migrateLegacyExecutables w = (Return tt, w')
             /\ settle w'
                = applyUpdates
                    (simpleLegacyUpdates (workspaceFolderValue vals)
                       WorkspaceFolder)
                    (applyUpdates
                       (simpleLegacyUpdates (workspaceValue vals) Workspace)
                       (applyUpdates
                          (simpleLegacyUpdates (globalValue vals) Global)
                          (settle w)))).
  { unfold migrateLegacyExecutables.
    erewrite bind_run; [|reflexivity]. cbv beta. fold vals.
    destruct (_isDefinedConfig (Some vals)) eqn:Ed.
    - destruct (migrate_simple _ Global w Hg) as (w1 & R1 & S1).
      destruct (migrate_simple _ Workspace w1 Hw) as (w2 & R2 & S2).
      destruct (migrate_simple _ WorkspaceFolder w2 Hf) as (w3 & R3 & S3).
      exists w3. split.
      + erewrite bind_run; [|exact R1]. cbv beta.
        erewrite bind_run; [|exact R2]. exact R3.
      + now rewrite S3, S2, S1.
    - exists w. split; [reflexivity|].
      apply _isDefinedConfig_false in Ed. destruct Ed as (Eg & Ew & Ef).
      unfold simpleLegacyUpdates. now rewrite Eg, Ew, Ef. }
  destruct Hrun as (w' & Hrun & Hs). exists w'. split; [exact Hrun|].
  set (sg := applyUpdates (simpleLegacyUpdates (globalValue vals) Global)
               (settle w)) in Hs.
  set (sw := applyUpdates (simpleLegacyUpdates (workspaceValue vals) Workspace)
               sg) in Hs.
  destruct (simpleLegacyUpdates_settings (globalValue vals) Global (settle w))
    as (G1 & G2 & G3).
  destruct (simpleLegacyUpdates_settings (workspaceValue vals) Workspace sg)
    as (W1 & W2 & W3).
  destruct (simpleLegacyUpdates_settings (workspaceFolderValue vals)
              WorkspaceFolder sw) as (F1 & F2 & F3).
  cbv zeta in G1, G2, G3, W1, W2, W3, F1, F2, F3.
  fold sg in G1, G2, G3, W1, W2, W3. fold sw in W1, W2, W3, F1, F2, F3.
  rewrite (settle_no_pending_new w Hp) in G1, G2.
  rewrite (settle_no_pending_old w Hp) in G3. fold vals in G3.
  assert (Hold : scopesUndefined (oldSettings (settle w') executables)).
  { rewrite Hs, F3, W3, G3. unfold scopesUndefined.
    destruct (isUndefined (globalValue vals)) eqn:Eg;
      destruct (isUndefined (workspaceValue vals)) eqn:Ew;
      destruct (isUndefined (workspaceFolderValue vals)) eqn:Ef;
      rewrite ?isUndefined_true in *; simpl; repeat split; assumption. }
  split; [exact Hold|]. split.
  - intro t. rewrite Hs, F1, F2, W1, W2, G1, G2.
    destruct t; simpl scopeValue at 1;
      destruct (isUndefined (globalValue vals)) eqn:Eg;
      destruct (isUndefined (workspaceValue vals)) eqn:Ew;
      destruct (isUndefined (workspaceFolderValue vals)) eqn:Ef;
      split; reflexivity.
  - apply (migrateLegacyExecutables_undefined (settle w')).
    now apply _isDefinedConfig_false.
Qed.

Lemma legacy_simple_executables_are_migrated_witness :
  let w := withOld executables Workspace (VString "build/*test*")
             (withOld executables Global VNull (freshWorld plainHost)) in
  exists w',
    migrateLegacyExecutables w = (Return tt, w')
    /\ globalValue (newSettings (settle w') test_executable) = VString ""
    /\ workspaceValue (newSettings (settle w') test_executable)
       = VString "build/*test*"
    /\ scopesUndefined (oldSettings (settle w') executables).
Proof.
  intro w.
  destruct (legacy_simple_executables_are_migrated w eq_refl eq_refl eq_refl
              eq_refl) as (w' & Hrun & Hold & Hnew & _).
  exists w'. split; [exact Hrun|].
  split; [exact (proj1 (Hnew Global))|].
  split; [exact (proj1 (Hnew Workspace))|exact Hold].
Defined.

(** X10: a legacy [executables] value that is neither [null], a string
    nor an array (a single object, a number, a boolean) is not migrated:
    the case is reported and nothing else happens, so no write is requested
    and the legacy value stays where it is. *)
Theorem legacy_other_value_is_not_migrated (v : JsVal)
  (t : ConfigurationTarget) (w : World) :
  isUndefined v = false ->
  isNull v = false ->
  typeof v <> "string" ->
  Array_isArray v = false ->
  migrate v t w
  = (Return tt,
     addLogged [{| logMethod := errorS;
                   logMessage := "unhandled config case";
                   logArgs := [v; targetValue t] |}] w).
Proof.
  intros Hu Hn Hs Ha. unfold migrate. rewrite Hu, Hn.
  apply String.eqb_neq in Hs. rewrite Hs.
  destruct v; try discriminate; reflexivity.
Qed.

Lemma legacy_other_value_is_not_migrated_witness :
  let v := VObject [("pattern", VString "build/*test*")] in
  let w := withOld executables Global v (freshWorld plainHost) in
  exists w',
    migrateLegacyExecutables w = (Return tt, w')
    /\ pendingUpdates w' = []
    /\ globalValue (oldSettings (settle w') executables) = v.
Proof.
  intros v w.
  pose proof (legacy_other_value_is_not_migrated v Global w eq_refl eq_refl
                ltac:(discriminate) eq_refl) as H.
  eexists. split; [|split].
  - unfold migrateLegacyExecutables. erewrite bind_run; [|reflexivity].
    cbv beta. change (_isDefinedConfig (Some (oldSettings w executables)))
      with true. cbv iota.
    erewrite bind_run; [|exact H]. reflexivity.
  - reflexivity.
  - reflexivity.
Defined.

(** ** Expansion: errors and normal form *)

Lemma hasNoError_accepted (conf : JsVal) :
  hasNoError conf = acceptedElement conf.
Proof.
  unfold hasNoError, elementError, acceptedElement.
  destruct conf; try reflexivity.
  destruct (isStringValue (lookupProp "pattern" props)); [|reflexivity].
  simpl. destruct (isNull (lookupProp "catch2" props)); [reflexivity|].
  destruct (isNull (lookupProp "gtest" props)); [reflexivity|].
  now destruct (isNull (lookupProp "doctest" props)).
Qed.

Lemma forallb_ext_eq {A : Type} (f g : A -> bool) (l : list A) :
  (forall a, f a = g a) -> forallb f l = forallb g l.
Proof. intro H. induction l as [|a l IH]; simpl; [reflexivity|]. now rewrite H, IH. Qed.

Section ExpansionFacts.

Context {SharedVariables ResolveRulePair : Type}.
Variable shared : SharedVariables.
Variable variableToValue : list ResolveRulePair.

(** The error of an element is what the construction from it throws. *)
Lemma createExecutableConfigFromObj_error (cwd conf : JsVal) (e : Exception)
  (w : World) :
  isStringValue conf = false ->
  elementError conf = Some e ->
  fst (createExecutableConfigFromObj shared variableToValue cwd conf w)
  = Throw e.
Proof.
  intros Hs He. destruct conf; try discriminate;
    try (simpl in He; inversion He; subst; reflexivity).
  unfold elementError in He.
  destruct (isStringValue (lookupProp "pattern" props)) eqn:Ep.
  - simpl in He.
    unfold createExecutableConfigFromObj.
    repeat (erewrite bind_run; [|reflexivity]).
    rewrite Ep. erewrite bind_run; [|reflexivity].
    repeat (erewrite bind_run; [|reflexivity]).
    set (tg := if truthy (lookupProp "testGrouping" props)
               then lookupProp "testGrouping" props else VUndefined).
    destruct (isNull (lookupProp "catch2" props)) eqn:E1.
    { inversion He; subst.
      destruct (lookupProp "catch2" props); try discriminate. reflexivity. }
    apply isNull_false in E1.
    destruct (framework_not_null tg _ w E1) as [r1 R1].
    erewrite bind_run; [|exact R1]. erewrite bind_run; [|reflexivity].
    destruct (isNull (lookupProp "gtest" props)) eqn:E2.
    { inversion He; subst.
      destruct (lookupProp "gtest" props); try discriminate. reflexivity. }
    apply isNull_false in E2.
    destruct (framework_not_null tg _ w E2) as [r2 R2].
    erewrite bind_run; [|exact R2]. erewrite bind_run; [|reflexivity].
    destruct (isNull (lookupProp "doctest" props)) eqn:E3; [|discriminate].
    inversion He; subst.
    destruct (lookupProp "doctest" props); try discriminate. reflexivity.
  - simpl in He. inversion He; subst.
    apply createExecutableConfigFromObj_pattern_required.
    now apply isStringValue_typeof.
Qed.

(** The loop throws the error of the first element that has one. *)
Lemma createExecutableConfigs_first_error (cwd : JsVal)
  (pre rest : list JsVal) (x : JsVal) (e : Exception) :
  forallb hasNoError pre = true ->
  elementError x = Some e ->
  forall acc w,
    fst (createExecutableConfigs shared variableToValue cwd
           (pre ++ x :: rest) acc w)
    = Throw e.
Proof.
  intros Hpre He.
  assert (Hx : isStringValue x = false) by (destruct x; discriminate || reflexivity).
  induction pre as [|conf pre IH]; intros acc w.
  - rewrite app_nil_l. cbn [createExecutableConfigs].
    fold (isStringValue x). rewrite Hx.
    pose proof (createExecutableConfigFromObj_error cwd x e w Hx He) as E.
    unfold bind.
    destruct (createExecutableConfigFromObj _ _ _ _ w) as [[c|e'] w1];
      simpl in E; [discriminate|].
    inversion E. reflexivity.
  - simpl in Hpre. apply andb_true_iff in Hpre. destruct Hpre as [Hc Hr].
    rewrite hasNoError_accepted in Hc.
    rewrite <- app_comm_cons.
    destruct conf; try discriminate.
    + rewrite createExecutableConfigs_string. apply (IH Hr).
    + rewrite createExecutableConfigs_object.
      destruct (createExecutableConfigFromObj_accepts shared variableToValue
                  cwd props w Hc) as [c Ec].
      erewrite bind_run; [|exact Ec]. apply (IH Hr).
Qed.

(** X12: the first element of [test.executables] that has an error
    decides the outcome.  When the elements before it have none,
    [getExecutables] throws the error of that element: a [TypeError] for a
    [null] element or a [null] framework block, the shape error for a
    number, a boolean, an array or an object without a string pattern (the
    pattern is checked before the framework blocks). *)
Theorem getExecutables_first_error (w w1 : World) (pre rest : list JsVal)
  (x : JsVal) (e : Exception) :
  migrateLegacyExecutables w = (Return tt, w1) ->
  effective (newSettings w1 (Migratable test_executables))
  = VArray (pre ++ x :: rest) ->
  forallb hasNoError pre = true ->
  elementError x = Some e ->
  fst (getExecutables shared variableToValue w) = Throw e.
Proof.
  intros Hm Hc Hpre He.
  rewrite (getExecutables_migrated shared variableToValue _ _ Hm).
  destruct (expandExecutables_array shared variableToValue w1
              (pre ++ x :: rest) Hc) as (cwd & w2 & E).
  { destruct pre; discriminate. }
  rewrite E. now apply createExecutableConfigs_first_error.
Qed.

(** X13: a [test.executables] that is set to something else than an array
    is refused as a whole. *)
Theorem getExecutables_not_an_array (w w1 : World) :
  migrateLegacyExecutables w = (Return tt, w1) ->
  let configExecs := effective (newSettings w1 (Migratable test_executables)) in
  configExecs <> VUndefined ->
  Array_isArray configExecs = false ->
  fst (getExecutables shared variableToValue w)
  = Throw (Error "`test.executables` couldn't be recognised").
Proof.
  intros Hm configExecs Hu Ha.
  rewrite (getExecutables_migrated shared variableToValue _ _ Hm).
  destruct (getDefaultCwd_frame w1) as (cwd & w2 & Hcwd & Hnew).
  unfold expandExecutables. erewrite bind_run; [|exact Hcwd].
  cbv beta zeta. erewrite bind_run; [|reflexivity]. rewrite Hnew.
  fold configExecs.
  destruct configExecs; try congruence; try discriminate; reflexivity.
Qed.

End ExpansionFacts.

Lemma getExecutables_first_error_witness :
  fst (getExecutables tt (@nil unit)
         (withNew (Migratable test_executables) Workspace
            (VArray [VString "a";
                     VObject [("pattern", VString "b"); ("gtest", VNull)];
                     VNumber (integer 3)])
            (freshWorld plainHost)))
  = Throw TypeError.
Proof.
  set (w := withNew (Migratable test_executables) Workspace
              (VArray [VString "a";
                       VObject [("pattern", VString "b"); ("gtest", VNull)];
                       VNumber (integer 3)])
              (freshWorld plainHost)).
  exact (getExecutables_first_error tt (@nil unit) w w [VString "a"]
           [VNumber (integer 3)]
           (VObject [("pattern", VString "b"); ("gtest", VNull)]) TypeError
           eq_refl eq_refl eq_refl eq_refl).
Defined.

Lemma getExecutables_not_an_array_witness :
  fst (getExecutables tt (@nil unit)
         (withNew (Migratable test_executables) Global
            (VString "build/*test*") (freshWorld plainHost)))
  = Throw (Error "`test.executables` couldn't be recognised").
Proof.
  set (w := withNew (Migratable test_executables) Global
              (VString "build/*test*") (freshWorld plainHost)).
  exact (getExecutables_not_an_array tt (@nil unit) w w eq_refl
           ltac:(discriminate) eq_refl).
Defined.

(** ** Expansion: the normal form of a configuration *)

Lemma framework_closed_form (tg x : JsVal) (w w' : World)
  (r : ExecutableConfigFrameworkSpecific) :
  framework tg x w = (Return r, w') ->
  testGrouping r
  = (if String.eqb (typeof x) "object" then
       if truthy (blockProp x "testGrouping")
       then Some (blockProp x "testGrouping")
       else if truthy tg then Some tg else None
     else None)
  /\ helpRegex r
     = (if isStringValue (blockProp x "helpRegex")
        then Some (stringOf (blockProp x "helpRegex")) else None).
Proof.
  destruct x; unfold framework; simpl; intro H; inversion H; subst;
    split; reflexivity.
Qed.

Section NormalForm.

Context {SharedVariables ResolveRulePair : Type}.
Variable shared : SharedVariables.
Variable variableToValue : list ResolveRulePair.

(** The list and the framework blocks of a configuration built from an
    object. *)
Lemma createExecutableConfigFromObj_blocks (cwd obj : JsVal) (w w' : World)
  (c : ExecutableConfig SharedVariables ResolveRulePair) :
  createExecutableConfigFromObj shared variableToValue cwd obj w
  = (Return c, w') ->
  exists ps,
    obj = VObject ps
    /\ _dependsOn c
       = match lookupProp "dependsOn" ps with
         | VArray l => filter isStringValue l
         | _ => []
         end
    /\ (let tg := if truthy (lookupProp "testGrouping" ps)
                  then lookupProp "testGrouping" ps else VUndefined in
        framework tg (lookupProp "catch2" ps) w = (Return (_catch2 c), w)
        /\ framework tg (lookupProp "gtest" ps) w = (Return (_gtest c), w)
        /\ framework tg (lookupProp "doctest" ps) w = (Return (_doctest c), w)).
Proof.
  intro H. destruct obj; try (vm_compute in H; discriminate).
  exists props. split; [reflexivity|].
  unfold createExecutableConfigFromObj in H.
  repeat (apply bind_returns in H; destruct H as (? & ? & ? & H)).
  run_getProp.
  destruct (isStringValue (lookupProp "pattern" props)) eqn:Epat;
    [|vm_compute in H3; discriminate].
  inversion H3; subst; clear H3.
  pose proof (framework_world _ _ _ _ _ H10) as E1. subst.
  pose proof (framework_world _ _ _ _ _ H12) as E2. subst.
  pose proof (framework_world _ _ _ _ _ H14) as E3. subst.
  inversion H; subst; clear H. simpl.
  split; [reflexivity|]. repeat split; assumption.
Qed.

Lemma filter_forallb {A : Type} (f : A -> bool) (l : list A) :
  forallb f (filter f l) = true.
Proof.
  induction l as [|a l IH]; simpl; [reflexivity|].
  destruct (f a) eqn:E; simpl; [now rewrite E|exact IH].
Qed.

Lemma createExecutableConfigFromObj_normalized (cwd obj : JsVal)
  (w w' : World) (c : ExecutableConfig SharedVariables ResolveRulePair) :
  truthy cwd = true ->
  createExecutableConfigFromObj shared variableToValue cwd obj w
  = (Return c, w') ->
  normalizedConfig c = true /\ _defaultCwd c = cwd.
Proof.
  intros Hcwd H.
  destruct (createExecutableConfigFromObj_blocks _ _ _ _ _ H)
    as (ps & _ & Hdep & _).
  destruct (createExecutableConfigFromObj_fields shared variableToValue
              _ _ _ _ _ H)
    as (ps' & _ & _ & _ & Hn & Hd & Hc & He & _ & Hdc).
  split; [|exact Hdc].
  unfold normalizedConfig, stringOrUndefined.
  rewrite Hdc, Hcwd, Hn, Hd, Hc, He, Hdep. cbv zeta.
  assert (S : forall v, isUndefined (if isStringValue v then v else VUndefined)
                        || isStringValue (if isStringValue v then v else VUndefined)
                        = true).
  { intro v. destruct (isStringValue v) eqn:E; [now rewrite E, orb_true_r|reflexivity]. }
  rewrite !S. simpl.
  assert (E : isUndefined
                (if typeof (lookupProp "env" ps') =? "object"
                 then lookupProp "env" ps' else VUndefined)
              || (typeof (if typeof (lookupProp "env" ps') =? "object"
                          then lookupProp "env" ps' else VUndefined)
                  =? "object") = true).
  { destruct (typeof (lookupProp "env" ps') =? "object") eqn:E;
      [now rewrite E, orb_true_r|reflexivity]. }
  rewrite E. simpl.
  destruct (lookupProp "dependsOn" ps); try reflexivity.
  apply filter_forallb.
Qed.

Lemma createExecutableConfigFromPattern_normalized (cwd : JsVal) (s : string) :
  truthy cwd = true ->
  normalizedConfig
    (createExecutableConfigFromPattern shared variableToValue cwd s) = true.
Proof. intro H. unfold normalizedConfig. simpl. now rewrite H. Qed.

Lemma expandExecutables_normalized (w : World)
  (cs : list (ExecutableConfig SharedVariables ResolveRulePair)) :
  fst (expandExecutables shared variableToValue w) = Return cs ->
  exists cwd,
    truthy cwd = true
    /\ Forall (fun c => normalizedConfig c = true /\ _defaultCwd c = cwd) cs.
Proof.
  destruct (getDefaultCwd_frame w) as (cwd0 & w1 & Hcwd & Hnew).
  set (cwd := if truthy cwd0 then cwd0 else VString "${absDirpath}").
  assert (Ht : truthy cwd = true).
  { subst cwd. destruct (truthy cwd0) eqn:E; [exact E|reflexivity]. }
  unfold expandExecutables. erewrite bind_run; [|exact Hcwd].
  cbv beta zeta. fold cwd. erewrite bind_run; [|reflexivity].
  intro H. exists cwd. split; [exact Ht|].
  assert (Hfallback :
    fst ((log info
            "`test.executables` is not defined. trying to use `test.executable`"
            [] ;;
          simpleConfig <- _new_get test_executable ;;
          (if isUndefined simpleConfig then
             ret [createExecutableConfigFromPattern shared variableToValue
                    cwd defaultPattern]
           else if String.eqb (typeof simpleConfig) "string" then
             if (String.length (stringOf simpleConfig) =? 0)%nat then ret []
             else
               ret [createExecutableConfigFromPattern shared variableToValue
                      cwd (stringOf simpleConfig)]
           else
             log warn "test.executable should be an string or undefined"
               [simpleConfig] ;;
             throw (Error "`test.executable` couldn't be recognised. It should be a string. For fine-tuning use `test.executables`."))) w1)
    = Return cs ->
    Forall (fun c => normalizedConfig c = true /\ _defaultCwd c = cwd) cs).
  { clear H. erewrite bind_run; [|reflexivity]. cbv beta.
    erewrite bind_run; [|reflexivity]. cbv beta.
    destruct (effective _) as [| |b|n|s|l|ps]; simpl; intro H;
      try discriminate.
    - inversion H. repeat constructor.
      now apply createExecutableConfigFromPattern_normalized.
    - destruct s; simpl in H; inversion H; repeat constructor.
      now apply createExecutableConfigFromPattern_normalized. }
  destruct (effective (newSettings w1 (Migratable test_executables)))
    as [| |b|n|s|l|ps]; try (simpl in H; discriminate H).
  - now apply Hfallback.
  - destruct l as [|conf l]; [now apply Hfallback|].
    clear Hfallback. erewrite bind_run in H; [|reflexivity].
    destruct (createExecutableConfigs _ _ _ _ _ _) as [o w3] eqn:R.
    simpl in H. subst o.
    apply createExecutableConfigs_returns in R.
    destruct R as (cs' & -> & HF). simpl.
    clear - HF Ht. induction HF as [|x c xs cs1 Hx HF IH]; constructor;
      [|exact IH].
    destruct (isStringValue x).
    + subst c. split; [|reflexivity].
      now apply createExecutableConfigFromPattern_normalized.
    + destruct Hx as (wa & wb & Hx).
      now apply (createExecutableConfigFromObj_normalized cwd x wa wb).
Qed.

(** X14: every configuration [getExecutables] returns is in normal form,
    whatever the settings hold: its default working directory is truthy and
    the same for all configurations of the call; its name, description and
    working directory are each a string or undefined; its environment is
    undefined or of type object; its dependencies are all strings. *)
Theorem getExecutables_normal_form (w : World)
  (cs : list (ExecutableConfig SharedVariables ResolveRulePair)) :
  fst (getExecutables shared variableToValue w) = Return cs ->
  exists cwd,
    truthy cwd = true
    /\ Forall (fun c => normalizedConfig c = true /\ _defaultCwd c = cwd) cs.
Proof.
  unfold getExecutables, bind.
  destruct (migrateLegacyExecutables w) as [[[]|e] w1]; [|discriminate].
  apply expandExecutables_normalized.
Qed.

(** X15: the top-level [testGrouping] of an executable object reaches a
    framework block only when that block is present.  In the configuration
    built from an object, a framework block that is absent has no test
    grouping even when the object has one; a block that is an object has
    its own grouping if that is truthy, else the object's if that is
    truthy, else none. *)
Theorem testGrouping_needs_a_block (cwd : JsVal)
  (ps : list (string * JsVal)) (w w' : World)
  (c : ExecutableConfig SharedVariables ResolveRulePair) :
  createExecutableConfigFromObj shared variableToValue cwd (VObject ps) w
  = (Return c, w') ->
  let top := lookupProp "testGrouping" ps in
  let grouping := fun block =>
    if String.eqb (typeof block) "object" then
      if truthy (blockProp block "testGrouping")
      then Some (blockProp block "testGrouping")
      else if truthy top then Some top else None
    else None in
  testGrouping (_catch2 c) = grouping (lookupProp "catch2" ps)
  /\ testGrouping (_gtest c) = grouping (lookupProp "gtest" ps)
  /\ testGrouping (_doctest c) = grouping (lookupProp "doctest" ps)
  /\ (lookupProp "catch2" ps = VUndefined ->
      lookupProp "gtest" ps = VUndefined ->
      lookupProp "doctest" ps = VUndefined ->
      testGrouping (_catch2 c) = None
      /\ testGrouping (_gtest c) = None
      /\ testGrouping (_doctest c) = None).
Proof.
  intros H top grouping.
  destruct (createExecutableConfigFromObj_blocks _ _ _ _ _ H)
    as (ps' & Heq & _ & H1 & H2 & H3).
  inversion Heq; subst ps'. clear Heq.
  apply framework_closed_form in H1, H2, H3.
  destruct H1 as [H1 _], H2 as [H2 _], H3 as [H3 _].
  assert (T : forall block,
             (if String.eqb (typeof block) "object" then
                if truthy (blockProp block "testGrouping")
                then Some (blockProp block "testGrouping")
                else if truthy (if truthy top then top else VUndefined)
                     then Some (if truthy top then top else VUndefined)
                     else None
              else None) = grouping block).
  { intro block. subst grouping. cbv beta.
    destruct (String.eqb (typeof block) "object"); [|reflexivity].
    destruct (truthy (blockProp block "testGrouping")); [reflexivity|].
    destruct (truthy top) eqn:E; [now rewrite E|reflexivity]. }
  fold top in H1, H2, H3. rewrite T in H1, H2, H3.
  split; [exact H1|]. split; [exact H2|]. split; [exact H3|].
  intros E1 E2 E3. rewrite H1, H2, H3, E1, E2, E3. now repeat split.
Qed.

End NormalForm.

Lemma getExecutables_normal_form_witness :
  exists c,
    fst (getExecutables tt (@nil unit)
           (withNew (Migratable test_executables) Global
              (VArray [VObject [("pattern", VString "a");
                                ("dependsOn",
                                 VArray [VString "x"; VNumber (integer 1)]);
                                ("name", VBool true)]])
              (freshWorld plainHost)))
    = Return [c]
    /\ normalizedConfig c = true
    /\ _dependsOn c = [VString "x"].
Proof.
  eexists. split; [reflexivity|].
  match goal with
  | |- normalizedConfig ?c = true /\ _ =>
      destruct (getExecutables_normal_form tt (@nil unit)
                  (withNew (Migratable test_executables) Global
                     (VArray [VObject [("pattern", VString "a");
                                       ("dependsOn",
                                        VArray [VString "x";
                                                VNumber (integer 1)]);
                                       ("name", VBool true)]])
                     (freshWorld plainHost))
                  [c] eq_refl) as (cwd & _ & HF)
  end.
  inversion HF as [|? ? [Hn _] _]; subst. split; [exact Hn|reflexivity].
Defined.

Lemma testGrouping_needs_a_block_witness :
  let ps := [("pattern", VString "a");
             ("testGrouping", VObject [("groupByExecutable", VObject [])]);
             ("gtest", VObject [])] in
  exists c,
    createExecutableConfigFromObj tt (@nil unit) (VString "/ws") (VObject ps)
      (freshWorld plainHost)
    = (Return c, freshWorld plainHost)
    /\ testGrouping (_catch2 c) = None
    /\ testGrouping (_gtest c)
       = Some (VObject [("groupByExecutable", VObject [])]).
Proof.
  intro ps. eexists. split; [reflexivity|].
  match goal with
  | |- testGrouping (_catch2 ?c) = None /\ _ =>
      destruct (testGrouping_needs_a_block tt (@nil unit) (VString "/ws") ps
                  (freshWorld plainHost) (freshWorld plainHost) c eq_refl)
        as (H1 & H2 & _)
  end.
  split; [exact H1|exact H2].
Defined.

(** ** Debug template: where the fields come from *)

Lemma lookupProp_setProp (k k' : string) (v : JsVal)
  (ps : list (string * JsVal)) :
  lookupProp k (setProp k' v ps)
  = if String.eqb k k' then v else lookupProp k ps.
Proof.
  induction ps as [|[k0 v0] ps IH]; simpl.
  - now destruct (String.eqb k k').
  - destruct (String.eqb k' k0) eqn:E; simpl.
    + apply String.eqb_eq in E. subst k0.
      now destruct (String.eqb k k').
    + rewrite IH. destruct (String.eqb k k0) eqn:E0; [|reflexivity].
      apply String.eqb_eq in E0. subst k0.
      rewrite String.eqb_sym in E. now rewrite E.
Qed.


Lemma hasProp_In (k : string) (ps : list (string * JsVal)) :
  hasProp k ps = true -> In k (map fst ps).
Proof.
  induction ps as [|[k0 v0] ps IH]; simpl; [discriminate|].
  destruct (String.eqb k k0) eqn:E; simpl.
  - apply String.eqb_eq in E. now left.
  - intro H. right. now apply IH.
Qed.

(** With distinct source keys, an assigned object holds the source's value
    under each source key and the target's value under any other. *)
Lemma lookupProp_assign (k : string) (src : list (string * JsVal)) :
  NoDup (map fst src) ->
  forall target,
    lookupProp k (fold_left (fun t kv => setProp (fst kv) (snd kv) t) src target)
    = if hasProp k src then lookupProp k src else lookupProp k target.
Proof.
  induction src as [|[k0 v0] src IH]; intros Hnd target; [reflexivity|].
  simpl in Hnd. inversion Hnd as [|? ? Hnot Hnd']; subst.
  simpl. rewrite (IH Hnd'), lookupProp_setProp.
  destruct (String.eqb k k0) eqn:E; simpl.
  - apply String.eqb_eq in E. subst k0.
    destruct (hasProp k src) eqn:Eh; [|reflexivity].
    exfalso. apply Hnot. now apply hasProp_In.
  - reflexivity.
Qed.

(** X16: a template given by the user always resolves, and its fields
    win.  When the setting resolves to an object, with distinct keys, the
    call returns a template that holds the user's value under each of the
    user's keys and the name, request ['launch'] and type ['cppdbg'] of the
    base under those the user left out; neither the launch configurations
    nor the installed extensions matter. *)
Theorem user_template_fields_win (w w1 : World)
  (ps : list (string * JsVal)) :
  _getNewOrOldAndMigrate debug_configTemplate w = (Return (VObject ps), w1) ->
  NoDup (map fst ps) ->
  exists template,
    fst (getDebugConfigurationTemplate w) = Return template
    /\ forall k,
        lookupProp k template
        = if hasProp k ps then lookupProp k ps else lookupProp k baseTemplate.
Proof.
  intros Hrun Hnd. unfold getDebugConfigurationTemplate.
  erewrite bind_run; [|apply _getNewOrOldOrDefAndMigrate_run; exact Hrun].
  cbv beta. simpl. eexists. split; [reflexivity|].
  intro k. unfold Object_assign. simpl ownProps.
  now apply lookupProp_assign.
Qed.

Lemma user_template_fields_win_witness :
  exists template,
    fst (getDebugConfigurationTemplate
           (withNew (Migratable debug_configTemplate) Workspace
              (VObject [("type", VString "lldb"); ("sourceMap", VObject [])])
              (freshWorld plainHost)))
    = Return template
    /\ lookupProp "type" template = VString "lldb"
    /\ lookupProp "request" template = VString "launch".
Proof.
  destruct (user_template_fields_win
              (withNew (Migratable debug_configTemplate) Workspace
                 (VObject [("type", VString "lldb"); ("sourceMap", VObject [])])
                 (freshWorld plainHost))
              _ [("type", VString "lldb"); ("sourceMap", VObject [])]
              eq_refl)
    as (template & Hrun & Hk).
  { repeat constructor; simpl; intuition discriminate. }
  exists template. split; [exact Hrun|].
  split; [exact (Hk "type")|exact (Hk "request")].
Defined.




(** The probe of the extensions, by priority. *)
Lemma templateFromExtensions_priority (w : World) :
  let h := host w in
  (installed h "vadimcn.vscode-lldb" = true ->
   exists t, fst (templateFromExtensions w) = Return t
             /\ lookupProp "type" t = VString "cppdbg"
             /\ lookupProp "MIMode" t = VString "lldb")
  /\ (installed h "vadimcn.vscode-lldb" = false ->
      installed h "webfreak.debug" = true ->
      exists t, fst (templateFromExtensions w) = Return t
                /\ lookupProp "type" t
                   = VString (if String.eqb (platform h) "darwin"
                              then "lldb-mi" else "gdb")
                /\ hasProp "lldbmipath" t = String.eqb (platform h) "darwin")
  /\ (installed h "vadimcn.vscode-lldb" = false ->
      installed h "webfreak.debug" = false ->
      installed h "ms-vscode.cpptools" = true ->
      exists t, fst (templateFromExtensions w) = Return t
                /\ lookupProp "type" t = VString "cppvsdbg").
Proof.
  intro h. unfold installed, templateFromExtensions, getExtension.
  erewrite bind_run; [|reflexivity]. cbv beta. fold h.
  destruct (existsb (String.eqb "vadimcn.vscode-lldb") _).
  { split; [intros _; eexists; repeat split|]. split; discriminate. }
  erewrite bind_run; [|reflexivity]. cbv beta. cbn [host]. fold h.
  destruct (existsb (String.eqb "webfreak.debug") _).
  { split; [discriminate|]. split; [|discriminate]. intros _ _.
    erewrite bind_run; [|reflexivity]. erewrite bind_run; [|reflexivity].
    cbv beta. cbn [host]. fold h.
    destruct (platform h =? "darwin"); eexists; repeat split. }
  erewrite bind_run; [|reflexivity]. cbv beta. cbn [host]. fold h.
  destruct (existsb (String.eqb "ms-vscode.cpptools") _).
  { split; [discriminate|]. split; [discriminate|]. intros _ _ _.
    eexists. repeat split. }
  split; [discriminate|]. split; discriminate.
Qed.

(** X18: with a setting that is neither an object nor unset, such as
    ['extensionOnly'], the launch configurations are never looked at and the
    first installed extension, in the order lldb, webfreak, cpptools, decides
    the type of the template: ['cppdbg'] with [MIMode] ['lldb'] for the
    first; ['gdb'], or ['lldb-mi'] with the path of [lldb-mi] on darwin, for
    the second; ['cppvsdbg'] for the third. *)
Theorem extension_priority_decides_type (w w1 : World) (v : JsVal) :
  _getNewOrOldAndMigrate debug_configTemplate w = (Return v, w1) ->
  isUndefined v = false ->
  isNull v = false ->
  isNonNullObject v = false ->
  let h := host w in
  (installed h "vadimcn.vscode-lldb" = true ->
   exists t, fst (getDebugConfigurationTemplate w) = Return t
             /\ lookupProp "type" t = VString "cppdbg"
             /\ lookupProp "MIMode" t = VString "lldb")
  /\ (installed h "vadimcn.vscode-lldb" = false ->
      installed h "webfreak.debug" = true ->
      exists t, fst (getDebugConfigurationTemplate w) = Return t
                /\ lookupProp "type" t
                   = VString (if String.eqb (platform h) "darwin"
                              then "lldb-mi" else "gdb")
                /\ hasProp "lldbmipath" t = String.eqb (platform h) "darwin")
  /\ (installed h "vadimcn.vscode-lldb" = false ->
      installed h "webfreak.debug" = false ->
      installed h "ms-vscode.cpptools" = true ->
      exists t, fst (getDebugConfigurationTemplate w) = Return t
                /\ lookupProp "type" t = VString "cppvsdbg").
Proof.
  intros Hrun Hu Hn Ho h.
  pose proof (_getNewOrOldAndMigrate_host _ _ _ _ Hrun) as Hhost.
  assert (E : getDebugConfigurationTemplate w = templateFromExtensions w1).
  { unfold getDebugConfigurationTemplate.
    erewrite bind_run; [|apply _getNewOrOldOrDefAndMigrate_run; exact Hrun].
    cbv beta. rewrite Hu. fold (isNonNullObject v). rewrite Ho, Hn.
    erewrite bind_run; [|reflexivity]. reflexivity. }
  rewrite E. subst h. rewrite <- Hhost.
  apply templateFromExtensions_priority.
Qed.

Lemma extension_priority_decides_type_witness :
  exists t,
    fst (getDebugConfigurationTemplate
           (withNew (Migratable debug_configTemplate) Global
              (VString "extensionOnly")
              (freshWorld
                 {| workspaceFolderFsPath := "/ws";
                    launchConfigurations :=
                      VArray [VObject [("request", VString "launch");
                                       ("type", VString "cppdbg")]];
                    installedExtensions :=
                      ["ms-vscode.cpptools"; "webfreak.debug"];
                    platform := "darwin" |})))
    = Return t
    /\ lookupProp "type" t = VString "lldb-mi".
Proof.
  destruct (extension_priority_decides_type
              (withNew (Migratable debug_configTemplate) Global
                 (VString "extensionOnly")
                 (freshWorld
                    {| workspaceFolderFsPath := "/ws";
                       launchConfigurations :=
                         VArray [VObject [("request", VString "launch");
                                          ("type", VString "cppdbg")]];
                       installedExtensions :=
                         ["ms-vscode.cpptools"; "webfreak.debug"];
                       platform := "darwin" |}))
              _ (VString "extensionOnly") eq_refl eq_refl eq_refl eq_refl)
    as (_ & H & _).
  destruct (H eq_refl eq_refl) as (t & Hrun & Ht & _).
  now exists t.
Defined.

(** ** Migration of a legacy array *)

Lemma executablesUpdates_settings (t : ConfigurationTarget)
  (simpleVal val : JsVal) (s : World) :
  let s' := applyUpdates (executablesUpdates t simpleVal val) s in
  newSettings s' test_executable
  = setScope t simpleVal (newSettings s test_executable)
  /\ newSettings s' (Migratable test_executables)
     = setScope t val (newSettings s (Migratable test_executables))
  /\ oldSettings s' executables
     = setScope t VUndefined (oldSettings s executables).
Proof.
  unfold executablesUpdates, applyUpdates, applyUpdate.
  cbn [fold_left updKey updValue updTarget newSettings oldSettings].
  rewrite !Config_eq_dec_same, OldConfig_eq_dec_same.
  destruct (Config_eq_dec (Migratable test_executables) test_executable);
    [discriminate|].
  destruct (Config_eq_dec test_executable (Migratable test_executables));
    [discriminate|].
  now repeat split.
Qed.

Lemma setScope_same (t : ConfigurationTarget) (v : JsVal) (i : Inspect) :
  scopeValue t (setScope t v i) = v.
Proof. now destruct t. Qed.

Lemma setScope_other (t t' : ConfigurationTarget) (v : JsVal) (i : Inspect) :
  t' <> t -> scopeValue t' (setScope t v i) = scopeValue t' i.
Proof. destruct t, t'; simpl; congruence. Qed.

(** X11: a legacy array that normalizes to no element, or to two or more,
    is migrated at its scope as the array migration is meant to work.  Once
    the writes are applied, at that scope: an empty normalized array leaves
    [test.executable] as the empty string and [test.executables] removed;
    two elements or more leave [test.executables] as the normalized array
    and [test.executable] removed; the legacy value is removed; and the
    other scopes of the three keys hold what they would hold without the
    migration. *)
Theorem legacy_array_is_migrated (vs : list JsVal) (t : ConfigurationTarget)
  (w : World) :
  let newVals := normalizeLegacyArray vs in
  List.length newVals <> 1%nat ->
  exists w',
    migrate (VArray vs) t w = (Return tt, w')
    /\ scopeValue t (newSettings (settle w') test_executable)
       = (match newVals with [] => VString "" | _ => VUndefined end)
    /\ scopeValue t (newSettings (settle w') (Migratable test_executables))
       = (match newVals with [] => VUndefined | _ => VArray newVals end)
    /\ scopeValue t (oldSettings (settle w') executables) = VUndefined
    /\ (forall t', t' <> t ->
        scopeValue t' (newSettings (settle w') test_executable)
        = scopeValue t' (newSettings (settle w) test_executable)
        /\ scopeValue t'
             (newSettings (settle w') (Migratable test_executables))
           = scopeValue t' (newSettings (settle w) (Migratable test_executables))
        /\ scopeValue t' (oldSettings (settle w') executables)
           = scopeValue t' (oldSettings (settle w) executables)).
Proof.
  intros newVals Hlen.
  destruct (migrate_array vs t w) as (w0 & Ho & Hn & Hp & Hrun).
  fold newVals in Hrun.
  assert (Hs0 : newSettings (settle w0) = newSettings (settle w)
                /\ oldSettings (settle w0) = oldSettings (settle w)).
  { destruct (settle_further w0 w [] Hn Ho) as [A B];
      [now rewrite app_nil_r|]. now split. }
  destruct Hs0 as [Hsn Hso].
  assert (Hupd : exists simpleVal val,
             migrate (VArray vs) t w = migrateUpdate t simpleVal val w0
             /\ simpleVal
                = (match newVals with [] => VString "" | _ => VUndefined end)
             /\ val
                = (match newVals with [] => VUndefined | _ => VArray newVals end)).
  { destruct newVals as [|x [|y l]]; [| simpl in Hlen; congruence |];
      eexists _, _; split; try exact Hrun; split; reflexivity. }
  destruct Hupd as (simpleVal & val & Hm & <- & <-).
  destruct (migrateUpdate_settled t simpleVal val w0) as (w' & Hrun' & Hs).
  exists w'. split; [now rewrite Hm|].
  destruct (executablesUpdates_settings t simpleVal val (settle w0))
    as (E1 & E2 & E3).
  cbv zeta in E1, E2, E3.
  rewrite Hs, E1, E2, E3, Hsn, Hso.
  rewrite !setScope_same. repeat split; try reflexivity;
    now apply setScope_other.
Qed.

Lemma legacy_array_is_migrated_witness :
  let w := withNew test_executable Global (VString "old/*")
             (freshWorld plainHost) in
  exists w',
    migrate (VArray [VString "a"; VNumber (integer 7);
                     VObject [("pattern", VString "b")]])
      Workspace w
    = (Return tt, w')
    /\ workspaceValue (newSettings (settle w') (Migratable test_executables))
       = VArray [VObject [("pattern", VString "a")];
                 VObject [("pattern", VString "b")]]
    /\ globalValue (newSettings (settle w') test_executable)
       = VString "old/*".
Proof.
  intro w.
  destruct (legacy_array_is_migrated
              [VString "a"; VNumber (integer 7);
               VObject [("pattern", VString "b")]] Workspace w
              ltac:(discriminate))
    as (w' & Hrun & _ & He & _ & Hother).
  exists w'. split; [exact Hrun|]. split; [exact He|].
  exact (proj1 (Hother Global ltac:(discriminate))).
Defined.
